(** * OfficeX Documents: the editor component and its local store

    A shallow embedding of [src/DocumentEditor.tsx]: the [Document]
    record, the IndexedDB object store ["documents"] keyed by [docId],
    the debounced [saveDocument] callback, the React state of the
    [DocumentEditor] component with the three effects that drive
    loading and autosave, and the [filteredDocuments] search filter.

    The component is event driven.  A [State] holds the React state of
    the one mounted [DocumentEditor], the browser resources it has
    armed (timers, IndexedDB requests still waiting for their event)
    and the object store.  [step] runs one event handler to completion,
    as the single-threaded event loop does.  Time is counted in
    milliseconds and advanced by the [Tick] event. *)

From Stdlib Require Import Ascii String.
From stdpp Require Import base strings list sorting gmap.

(** ** Documents and the object store *)

(** [interface Document] *)
Record Document := mkDocument {
  docId : string;
  title : string;
  body : string
}.

#[global] Instance Document_eq_dec : EqDecision Document.
Proof. solve_decision. Defined.

(** A JavaScript string is truthy exactly when it is not empty. *)
Definition truthy (s : string) : bool := bool_decide (s ≠ "").

(** The initial value of the [document] state, also the value
    [loadDocument] falls back to when the store has no record. *)
Definition untitled (id : string) : Document :=
  {| docId := id; title := "Untitled Document"; body := "" |}.

(** The object store created with [{ keyPath: "docId" }]: a record is
    filed under its own [docId], and [put] replaces the record that has
    the same key. *)
Definition idb_put (doc : Document) (st : gmap string Document) : gmap string Document :=
  <[docId doc := doc]> st.

Definition idb_get (id : string) (st : gmap string Document) : option Document :=
  st !! id.

Definition idb_delete (id : string) (st : gmap string Document) : gmap string Document :=
  delete id st.

Definition idb_getAll (st : gmap string Document) : list Document :=
  (map_to_list st).*2.

(** Every record sits under its own key.  The key path guarantees it in
    IndexedDB; [idb_put] and [idb_delete] keep it. *)
Definition keyed (st : gmap string Document) : Prop :=
  ∀ k d, st !! k = Some d → docId d = k.

(** ** The search filter *)

(** [String.prototype.includes], over the strings of the model. *)
Fixpoint startsWith (s p : string) {struct p} : bool :=
  match p, s with
  | EmptyString, _ => true
  | String _ _, EmptyString => false
  | String a p', String b s' => if decide (a = b) then startsWith s' p' else false
  end.

Fixpoint includes (s sub : string) : bool :=
  startsWith s sub ||
  match s with
  | EmptyString => false
  | String _ s' => includes s' sub
  end.

(** [toLowerCase] on the ASCII letters.  The filter itself is stated
    over any case mapping, see [Section Registry]. *)
Definition lower_ascii (c : ascii) : ascii :=
  let n := nat_of_ascii c in
  if bool_decide (65 ≤ n ≤ 90) then ascii_of_nat (n + 32) else c.

Fixpoint ascii_toLowerCase (s : string) : string :=
  match s with
  | EmptyString => EmptyString
  | String c s' => String (lower_ascii c) (ascii_toLowerCase s')
  end.

Section Registry.
(** [String.prototype.toLowerCase] is a built-in; the filter uses the
    same mapping on the title and on the search term. *)
Variable toLowerCase : string → string.

Definition matches (searchTerm : string) (doc : Document) : bool :=
  includes (toLowerCase (title doc)) (toLowerCase searchTerm).

(** [const filteredDocuments = documents.filter(...)] *)
Definition filteredDocuments (documents : list Document) (searchTerm : string) : list Document :=
  List.filter (matches searchTerm) documents.
End Registry.

(** ** The component and the browser around it *)

(** lodash's [debounce(func, 1000)] with its default options fires on
    the trailing edge only: the wrapped function runs once, [wait]
    milliseconds after the most recent call, with the arguments of that
    call.  An instance remembers those arguments and that deadline.
    The wrapped function closes over the [saveTimeout] of the render
    that created the instance. *)
Record Debounced := mkDebounced {
  closure_saveTimeout : option nat;
  pending : option (Document * nat)
}.

Definition quietPeriod : nat := 1000.
Definition displayDuration : nat := 2000.

(** An IndexedDB request that has been issued and whose [onsuccess] (or
    [onerror]) event has not been delivered yet.  Every function of the
    component first opens the database and continues in the
    [onsuccess] handler of that open request. *)
Inductive Request :=
  | ReqOpenInit
  | ReqOpenLoad (id : string)
  | ReqGet (id : string)
  | ReqOpenSave (doc : Document) (closure : option nat)
  | ReqPut (doc : Document)
  | ReqOpenDelete (id fresh : string)
  | ReqDelete (id : string)
  | ReqOpenLoadAll
  | ReqGetAll.

(** antd's [message.success] and [message.error] *)
Inductive Notice :=
  | Success (text : string)
  | Error (text : string).

Record State := mkState {
  (* the route parameter and the React state of the component *)
  routeDocId : option string;
  document : Document;
  isModalOpen : bool;
  documents : list Document;
  searchTerm : string;
  showSaveIndicator : bool;
  saveTimeout : option nat;
  saveDocument : Debounced;
  (* the browser: clock, timers, requests, database *)
  now : nat;
  nextTimer : nat;
  timers : list (nat * nat);
  detached : list Debounced;
  requests : list Request;
  store : gmap string Document;
  (* what an observer has seen so far *)
  puts : list Document;
  notices : list Notice
}.

Definition set_routeDocId (v : option string) (s : State) : State :=
  mkState v (document s) (isModalOpen s) (documents s) (searchTerm s) (showSaveIndicator s) (saveTimeout s) (saveDocument s) (now s) (nextTimer s) (timers s) (detached s) (requests s) (store s) (puts s) (notices s).
Definition set_document (v : Document) (s : State) : State :=
  mkState (routeDocId s) v (isModalOpen s) (documents s) (searchTerm s) (showSaveIndicator s) (saveTimeout s) (saveDocument s) (now s) (nextTimer s) (timers s) (detached s) (requests s) (store s) (puts s) (notices s).
Definition set_isModalOpen (v : bool) (s : State) : State :=
  mkState (routeDocId s) (document s) v (documents s) (searchTerm s) (showSaveIndicator s) (saveTimeout s) (saveDocument s) (now s) (nextTimer s) (timers s) (detached s) (requests s) (store s) (puts s) (notices s).
Definition set_documents (v : list Document) (s : State) : State :=
  mkState (routeDocId s) (document s) (isModalOpen s) v (searchTerm s) (showSaveIndicator s) (saveTimeout s) (saveDocument s) (now s) (nextTimer s) (timers s) (detached s) (requests s) (store s) (puts s) (notices s).
Definition set_searchTerm (v : string) (s : State) : State :=
  mkState (routeDocId s) (document s) (isModalOpen s) (documents s) v (showSaveIndicator s) (saveTimeout s) (saveDocument s) (now s) (nextTimer s) (timers s) (detached s) (requests s) (store s) (puts s) (notices s).
Definition set_showSaveIndicator (v : bool) (s : State) : State :=
  mkState (routeDocId s) (document s) (isModalOpen s) (documents s) (searchTerm s) v (saveTimeout s) (saveDocument s) (now s) (nextTimer s) (timers s) (detached s) (requests s) (store s) (puts s) (notices s).
Definition set_saveTimeout (v : option nat) (s : State) : State :=
  mkState (routeDocId s) (document s) (isModalOpen s) (documents s) (searchTerm s) (showSaveIndicator s) v (saveDocument s) (now s) (nextTimer s) (timers s) (detached s) (requests s) (store s) (puts s) (notices s).
Definition set_saveDocument (v : Debounced) (s : State) : State :=
  mkState (routeDocId s) (document s) (isModalOpen s) (documents s) (searchTerm s) (showSaveIndicator s) (saveTimeout s) v (now s) (nextTimer s) (timers s) (detached s) (requests s) (store s) (puts s) (notices s).
Definition set_now (v : nat) (s : State) : State :=
  mkState (routeDocId s) (document s) (isModalOpen s) (documents s) (searchTerm s) (showSaveIndicator s) (saveTimeout s) (saveDocument s) v (nextTimer s) (timers s) (detached s) (requests s) (store s) (puts s) (notices s).
Definition set_nextTimer (v : nat) (s : State) : State :=
  mkState (routeDocId s) (document s) (isModalOpen s) (documents s) (searchTerm s) (showSaveIndicator s) (saveTimeout s) (saveDocument s) (now s) v (timers s) (detached s) (requests s) (store s) (puts s) (notices s).
Definition set_timers (v : list (nat * nat)) (s : State) : State :=
  mkState (routeDocId s) (document s) (isModalOpen s) (documents s) (searchTerm s) (showSaveIndicator s) (saveTimeout s) (saveDocument s) (now s) (nextTimer s) v (detached s) (requests s) (store s) (puts s) (notices s).
Definition set_detached (v : list Debounced) (s : State) : State :=
  mkState (routeDocId s) (document s) (isModalOpen s) (documents s) (searchTerm s) (showSaveIndicator s) (saveTimeout s) (saveDocument s) (now s) (nextTimer s) (timers s) v (requests s) (store s) (puts s) (notices s).
Definition set_requests (v : list Request) (s : State) : State :=
  mkState (routeDocId s) (document s) (isModalOpen s) (documents s) (searchTerm s) (showSaveIndicator s) (saveTimeout s) (saveDocument s) (now s) (nextTimer s) (timers s) (detached s) v (store s) (puts s) (notices s).
Definition set_store (v : gmap string Document) (s : State) : State :=
  mkState (routeDocId s) (document s) (isModalOpen s) (documents s) (searchTerm s) (showSaveIndicator s) (saveTimeout s) (saveDocument s) (now s) (nextTimer s) (timers s) (detached s) (requests s) v (puts s) (notices s).
Definition set_puts (v : list Document) (s : State) : State :=
  mkState (routeDocId s) (document s) (isModalOpen s) (documents s) (searchTerm s) (showSaveIndicator s) (saveTimeout s) (saveDocument s) (now s) (nextTimer s) (timers s) (detached s) (requests s) (store s) v (notices s).
Definition set_notices (v : list Notice) (s : State) : State :=
  mkState (routeDocId s) (document s) (isModalOpen s) (documents s) (searchTerm s) (showSaveIndicator s) (saveTimeout s) (saveDocument s) (now s) (nextTimer s) (timers s) (detached s) (requests s) (store s) (puts s) v.

(** Issuing a request appends it to the queue of the database. *)
Definition issue (r : Request) (s : State) : State :=
  set_requests (requests s ++ [r]) s.

Definition notify (n : Notice) (s : State) : State :=
  set_notices (notices s ++ [n]) s.

(** *** Hooks *)

(** A call [saveDocument(doc)] of the debounced function: it keeps the
    document as the arguments to use and moves the deadline. *)
Definition call_debounced (doc : Document) (s : State) : State :=
  set_saveDocument
    {| closure_saveTimeout := closure_saveTimeout (saveDocument s);
       pending := Some (doc, now s + quietPeriod) |} s.

(** [document.docId && document.title && document.body] *)
Definition wellFormed (d : Document) : bool :=
  truthy (docId d) && truthy (title d) && truthy (body d).

(** [useEffect(() => { if (...) saveDocument(document) }, [document, saveDocument])] *)
Definition autosave_effect (s : State) : State :=
  if wellFormed (document s) then call_debounced (document s) s else s.

(** [setDocument(v)] stores a new object, so the render that follows
    runs the autosave effect. *)
Definition setDocument (v : Document) (s : State) : State :=
  autosave_effect (set_document v s).

(** [if (t) clearTimeout(t)]; timer identifiers are positive, [null] is
    [None]. *)
Definition clearTimeout (t : option nat) (s : State) : State :=
  match t with
  | Some i => set_timers (List.filter (λ p, negb (Nat.eqb p.1 i)) (timers s)) s
  | None => s
  end.

(** [setSaveTimeout(t)] with a fresh timer identifier.  In the render
    that follows, the cleanup of the effect on [[saveTimeout]] clears
    the timer of the previous render, [useCallback(debounce(...),
    [saveTimeout])] returns a new debounced function (the previous one
    is no longer called but keeps its timer), and the autosave effect
    runs because [saveDocument] changed. *)
Definition setSaveTimeout (t : nat) (s : State) : State :=
  let s := clearTimeout (saveTimeout s) s in
  let s := set_saveTimeout (Some t) s in
  let s := match pending (saveDocument s) with
           | Some _ => set_detached (detached s ++ [saveDocument s]) s
           | None => s
           end in
  let s := set_saveDocument {| closure_saveTimeout := Some t; pending := None |} s in
  autosave_effect s.

(** *** The functions of the component *)

Definition loadDocument (id : string) (s : State) : State :=
  issue (ReqOpenLoad id) s.

Definition loadAllDocuments (s : State) : State :=
  issue ReqOpenLoadAll s.

Definition deleteDocument (id fresh : string) (s : State) : State :=
  issue (ReqOpenDelete id fresh) s.

(** The function wrapped by [debounce], up to its [await]: it opens the
    database. *)
Definition saveDocument_invoke (D : Debounced) (s : State) : State :=
  match pending D with
  | Some (doc, _) => issue (ReqOpenSave doc (closure_saveTimeout D)) s
  | None => s
  end.

(** [db.onsuccess] inside [saveDocument] *)
Definition saveDocument_onsuccess (doc : Document) (closure : option nat) (s : State) : State :=
  let s := set_puts (puts s ++ [doc]) (issue (ReqPut doc) s) in
  let s := clearTimeout closure s in
  let s := set_showSaveIndicator true s in
  let t := nextTimer s in
  let s := set_nextTimer (S t) (set_timers (timers s ++ [(t, now s + displayDuration)]) s) in
  setSaveTimeout t s.

(** [navigate(`/doc/${id}`)]: the route parameter changes and the
    effect on [[docId]] loads the document. *)
Definition navigate (id : string) (s : State) : State :=
  if decide (routeDocId s = Some id) then s
  else
    let s := set_routeDocId (Some id) s in
    if truthy id then loadDocument id s else s.

Definition handleManualSave (s : State) : State :=
  notify (Success "Document saved successfully") (call_debounced (document s) s).

(** The [onsuccess] handler each request was given. *)
Definition onsuccess (r : Request) (s : State) : State :=
  match r with
  | ReqOpenInit => s
  | ReqOpenLoad id => issue (ReqGet id) s
  | ReqGet id =>
      match idb_get id (store s) with
      | Some d => setDocument d s
      | None => setDocument (untitled id) s
      end
  | ReqOpenSave doc closure => saveDocument_onsuccess doc closure s
  | ReqPut doc => set_store (idb_put doc (store s)) s
  | ReqOpenDelete id fresh =>
      let s := issue (ReqDelete id) s in
      let s := loadAllDocuments s in
      let s := navigate fresh s in
      let s := set_isModalOpen false s in
      notify (Success "Document deleted") s
  | ReqDelete id => set_store (idb_delete id (store s)) s
  | ReqOpenLoadAll => issue ReqGetAll s
  | ReqGetAll => set_documents (idb_getAll (store s)) s
  end.

(** Only [initIndexDB] installs an [onerror] handler. *)
Definition onerror (r : Request) (s : State) : State :=
  match r with
  | ReqOpenInit => notify (Error "Failed to initialize database") s
  | _ => s
  end.

(** *** Time *)

Definition deadline (D : Debounced) : nat :=
  match pending D with Some (_, t) => t | None => 0 end.

Definition due (t : nat) (D : Debounced) : bool :=
  match pending D with Some (_, dl) => bool_decide (dl ≤ t) | None => false end.

Definition disarm (D : Debounced) : Debounced :=
  {| closure_saveTimeout := closure_saveTimeout D; pending := None |}.

Definition earlier (D1 D2 : Debounced) : Prop := deadline D1 ≤ deadline D2.

#[global] Instance earlier_dec : RelDecision earlier.
Proof. intros D1 D2. unfold earlier. apply _. Defined.

(** [dt] milliseconds pass.  The indicator timers that are due hide the
    indicator; the debounced functions that are due run, in the order
    of their deadlines. *)
Definition tick (dt : nat) (s : State) : State :=
  let t := now s + dt in
  let s := set_now t s in
  let s := if existsb (λ p, bool_decide (p.2 ≤ t)) (timers s)
           then set_showSaveIndicator false s else s in
  let s := set_timers (List.filter (λ p, negb (bool_decide (p.2 ≤ t))) (timers s)) s in
  let fired := merge_sort earlier (List.filter (due t) (detached s ++ [saveDocument s])) in
  let s := set_detached (List.filter (λ D, negb (due t D)) (detached s)) s in
  let s := if due t (saveDocument s) then set_saveDocument (disarm (saveDocument s)) s else s in
  foldl (λ s D, saveDocument_invoke D s) s fired.

(** *** Events *)

Inductive Event :=
  | Tick (dt : nat)
  | TitleChange (value : string)
  | BodyChange (value : string)
  | ManualSave
  | OpenModal
  | CloseModal
  | SearchChange (value : string)
  | OpenItem (id : string)
  | ConfirmDelete (id fresh : string)
  | DbSuccess
  | DbError.

Definition step (s : State) (e : Event) : State :=
  match e with
  | Tick dt => tick dt s
  | TitleChange v =>
      setDocument {| docId := docId (document s); title := v; body := body (document s) |} s
  | BodyChange v =>
      setDocument {| docId := docId (document s); title := title (document s); body := v |} s
  | ManualSave => handleManualSave s
  | OpenModal => set_isModalOpen true (loadAllDocuments s)
  | CloseModal => set_isModalOpen false s
  | SearchChange v => set_searchTerm v s
  | OpenItem id => set_isModalOpen false (navigate id s)
  | ConfirmDelete id fresh => deleteDocument id fresh s
  | DbSuccess =>
      match requests s with
      | r :: rs => onsuccess r (set_requests rs s)
      | [] => s
      end
  | DbError =>
      match requests s with
      | r :: rs => onerror r (set_requests rs s)
      | [] => s
      end
  end.

Definition run (s : State) (tr : list Event) : State := foldl step s tr.

(** The first render of [DocumentEditor] and its effects, in the order
    of the source: [initIndexDB], [loadDocument], the autosave gate. *)
Definition mount (param : option string) (uuid : string) (st : gmap string Document) : State :=
  let id := match param with Some i => if truthy i then i else uuid | None => uuid end in
  let s := {| routeDocId := param; document := untitled id; isModalOpen := false;
              documents := []; searchTerm := ""; showSaveIndicator := false;
              saveTimeout := None; saveDocument := mkDebounced None None;
              now := 0; nextTimer := 1; timers := []; detached := [];
              requests := []; store := st; puts := []; notices := [] |} in
  let s := issue ReqOpenInit s in
  let s := match param with
           | Some i => if truthy i then loadDocument i s else s
           | None => s
           end in
  autosave_effect s.

(** * Properties *)

(** ** The object store *)

Lemma idb_put_get (doc : Document) (st : gmap string Document) :
  idb_get (docId doc) (idb_put doc st) = Some doc.
Proof. unfold idb_get, idb_put. apply lookup_insert_eq. Qed.

Lemma idb_put_keyed (doc : Document) (st : gmap string Document) :
  keyed st → keyed (idb_put doc st).
Proof.
  intros Hk k d. unfold idb_put. rewrite lookup_insert.
  case_decide as Hkey; [intros [= <-]; exact Hkey | apply Hk].
Qed.

Lemma idb_delete_keyed (id : string) (st : gmap string Document) :
  keyed st → keyed (idb_delete id st).
Proof.
  intros Hk k d. unfold idb_delete. rewrite lookup_delete.
  case_decide; [discriminate | apply Hk].
Qed.

Lemma idb_getAll_lookup (st : gmap string Document) (d : Document) :
  keyed st → (d ∈ idb_getAll st ↔ st !! docId d = Some d).
Proof.
  intros Hk. unfold idb_getAll. rewrite list_elem_of_fmap. split.
  - intros [[k d'] [-> Hin]]. apply elem_of_map_to_list in Hin. simpl.
    by rewrite (Hk _ _ Hin).
  - intros Hd. exists (docId d, d). split; [done | by apply elem_of_map_to_list].
Qed.

(** ** The search filter *)

(** [sub] occurs in [s] as a run of consecutive characters. *)
Definition occurs_in (sub s : string) : Prop :=
  ∃ pre post, s = pre +:+ sub +:+ post.

Lemma startsWith_spec (s p : string) :
  startsWith s p = true ↔ ∃ post, s = p +:+ post.
Proof.
  revert s. induction p as [|a p IH]; intros s; simpl.
  - split; [intros _; by exists s | done].
  - destruct s as [|b s].
    + split; [done | intros [post Hp]; discriminate].
    + case_decide as Hab.
      * subst b. rewrite IH. split; intros [post Hp]; exists post.
        -- by rewrite Hp.
        -- by injection Hp.
      * split; [done | intros [post Hp]; injection Hp; congruence].
Qed.

Lemma includes_spec (s sub : string) :
  includes s sub = true ↔ occurs_in sub s.
Proof.
  induction s as [|c s IH]; simpl; rewrite orb_true_iff, startsWith_spec.
  - split.
    + intros [[post Hp]|?]; [|done]. by exists "", post.
    + intros ([|c pre] & post & Hp); [left; by exists post | discriminate].
  - rewrite IH. split.
    + intros [[post Hp]|(pre & post & Hp)].
      * by exists "", post.
      * exists (String c pre), post. simpl. by rewrite Hp.
    + intros ([|c' pre] & post & Hp).
      * left. by exists post.
      * right. exists pre, post. simpl in Hp. by injection Hp.
Qed.

(** [r] is [l] with exactly the elements that fail [P] left out. *)
Inductive Selects {A : Type} (P : A → Prop) : list A → list A → Prop :=
  | Selects_nil : Selects P [] []
  | Selects_keep x l r : P x → Selects P l r → Selects P (x :: l) (x :: r)
  | Selects_drop x l r : ¬ P x → Selects P l r → Selects P (x :: l) r.

Lemma Selects_filter {A : Type} (P : A → Prop) (f : A → bool) (l : list A) :
  (∀ x, f x = true ↔ P x) → Selects P l (List.filter f l).
Proof.
  intros Hf. induction l as [|x l IH]; simpl; [constructor|].
  destruct (f x) eqn:Hx.
  - apply Selects_keep; [by apply Hf | done].
  - apply Selects_drop; [|done]. rewrite <- Hf. congruence.
Qed.

Lemma Selects_sublist {A : Type} (P : A → Prop) (l r : list A) :
  Selects P l r → r `sublist_of` l.
Proof. induction 1; by constructor. Qed.

Lemma includes_empty (s : string) : includes s "" = true.
Proof. destruct s; reflexivity. Qed.

Section Registry_facts.
Variable toLowerCase : string → string.
Hypothesis toLowerCase_empty : toLowerCase "" = "".

(** C8.  For every list of documents and every search term, the
    filter keeps exactly the documents whose lower-cased title
    contains the lower-cased search term as a substring, drops the
    others, and keeps the order of the list; with the empty search
    term it returns the whole list. *)
Theorem filteredDocuments_exact (documents : list Document) (searchTerm : string) :
  Selects (λ doc, occurs_in (toLowerCase searchTerm) (toLowerCase (title doc)))
          documents (filteredDocuments toLowerCase documents searchTerm)
  ∧ filteredDocuments toLowerCase documents searchTerm `sublist_of` documents
  ∧ filteredDocuments toLowerCase documents "" = documents.
Proof.
  assert (Hsel : Selects (λ doc, occurs_in (toLowerCase searchTerm) (toLowerCase (title doc)))
            documents (filteredDocuments toLowerCase documents searchTerm)).
  { apply Selects_filter. intros doc. apply includes_spec. }
  split; [exact Hsel|]. split; [exact (Selects_sublist _ _ _ Hsel)|].
  clear Hsel. unfold filteredDocuments, matches. rewrite toLowerCase_empty.
  induction documents as [|d l IH]; simpl; [done|].
  rewrite includes_empty. by f_equal.
Qed.
End Registry_facts.

Definition shelf : list Document :=
  [ {| docId := "1"; title := "ABCdef"; body := "<p>one</p>" |};
    {| docId := "2"; title := "axbyc"; body := "<p>two</p>" |};
    {| docId := "3"; title := "xabcy"; body := "<p>three</p>" |} ].

Lemma filteredDocuments_exact_witness :
  Selects (λ doc, occurs_in (ascii_toLowerCase "abc") (ascii_toLowerCase (title doc)))
          shelf (filteredDocuments ascii_toLowerCase shelf "abc")
  ∧ filteredDocuments ascii_toLowerCase shelf "abc" `sublist_of` shelf
  ∧ filteredDocuments ascii_toLowerCase shelf "" = shelf.
Proof. apply (filteredDocuments_exact ascii_toLowerCase); reflexivity. Defined.

Example filteredDocuments_shelf :
  filteredDocuments ascii_toLowerCase shelf "abc"
  = [ {| docId := "1"; title := "ABCdef"; body := "<p>one</p>" |};
      {| docId := "3"; title := "xabcy"; body := "<p>three</p>" |} ].
Proof. reflexivity. Qed.

(** ** How the handlers change the state *)

(** The open request a debounced function issues when it runs. *)
Definition fire (D : Debounced) : list Request :=
  match pending D with
  | Some (doc, _) => [ReqOpenSave doc (closure_saveTimeout D)]
  | None => []
  end.

Lemma invoke_all (l : list Debounced) (s : State) :
  foldl (λ s D, saveDocument_invoke D s) s l
  = set_requests (requests s ++ flat_map fire l) s.
Proof.
  revert s. induction l as [|D l IH]; intros s; simpl.
  - destruct s; unfold set_requests; simpl. by rewrite app_nil_r.
  - rewrite IH. unfold saveDocument_invoke, fire.
    destruct (pending D) as [[doc t]|]; [|done].
    unfold issue, set_requests; simpl. by rewrite <- app_assoc.
Qed.

Definition fired (t : nat) (s : State) : list Debounced :=
  merge_sort earlier (List.filter (due t) (detached s ++ [saveDocument s])).

Lemma tick_unfold (dt : nat) (s : State) :
  tick dt s =
  {| routeDocId := routeDocId s; document := document s; isModalOpen := isModalOpen s;
     documents := documents s; searchTerm := searchTerm s;
     showSaveIndicator :=
       if existsb (λ p, bool_decide (p.2 ≤ now s + dt)) (timers s)
       then false else showSaveIndicator s;
     saveTimeout := saveTimeout s;
     saveDocument :=
       if due (now s + dt) (saveDocument s) then disarm (saveDocument s) else saveDocument s;
     now := now s + dt; nextTimer := nextTimer s;
     timers := List.filter (λ p, negb (bool_decide (p.2 ≤ now s + dt))) (timers s);
     detached := List.filter (λ D, negb (due (now s + dt) D)) (detached s);
     requests := requests s ++ flat_map fire (fired (now s + dt) s);
     store := store s; puts := puts s; notices := notices s |}.
Proof.
  unfold tick. rewrite invoke_all. unfold fired. destruct s; simpl.
  destruct (existsb _ _); destruct (due _ _); reflexivity.
Qed.

Lemma fired_Forall (P : Debounced → Prop) (t : nat) (s : State) :
  Forall P (detached s) → P (saveDocument s) → Forall P (fired t s).
Proof.
  intros Hd Hc. unfold fired.
  rewrite merge_sort_Permutation. apply Forall_forall. intros D HD.
  apply list_elem_of_In, filter_In in HD as [HD _].
  apply in_app_or in HD as [HD|[<-|[]]]; [|done].
  rewrite Forall_forall in Hd. apply Hd. by apply list_elem_of_In.
Qed.

Lemma fired_none (t : nat) (s : State) :
  Forall (λ D, due t D = false) (detached s) → due t (saveDocument s) = false →
  fired t s = [].
Proof.
  intros Hd Hc. unfold fired.
  assert (List.filter (due t) (detached s ++ [saveDocument s]) = []) as ->; [|done].
  rewrite List.filter_app; simpl. rewrite Hc, app_nil_r.
  induction Hd as [|D l HD _ IH]; simpl; [done|]. by rewrite HD.
Qed.

Lemma flat_map_Forall {A B : Type} (P : A → Prop) (Q : B → Prop) (f : A → list B) (l : list A) :
  (∀ x, P x → Forall Q (f x)) → Forall P l → Forall Q (flat_map f l).
Proof.
  intros Hf. induction 1 as [|x l Hx _ IH]; simpl; [constructor|].
  apply Forall_app. split; [by apply Hf | done].
Qed.

(** What a call from the autosave effect leaves in a debounced
    function [D] at time [t], for the document [v]. *)
Definition arm (v : Document) (t : nat) (D : Debounced) : Debounced :=
  if wellFormed v
  then {| closure_saveTimeout := closure_saveTimeout D; pending := Some (v, t + quietPeriod) |}
  else D.

Definition without (t : option nat) (l : list (nat * nat)) : list (nat * nat) :=
  match t with
  | Some i => List.filter (λ p, negb (Nat.eqb p.1 i)) l
  | None => l
  end.

Definition orphan (D : Debounced) : list Debounced :=
  match pending D with Some _ => [D] | None => [] end.

Lemma setDocument_unfold (v : Document) (s : State) :
  setDocument v s = set_saveDocument (arm v (now s) (saveDocument s)) (set_document v s).
Proof.
  unfold setDocument, autosave_effect, arm, call_debounced. simpl.
  destruct (wellFormed v); [done | by destruct s].
Qed.

Lemma clearTimeout_unfold (t : option nat) (s : State) :
  clearTimeout t s = set_timers (without t (timers s)) s.
Proof. destruct t; [done | by destruct s]. Qed.

Lemma saveDocument_onsuccess_unfold (doc : Document) (closure : option nat) (s : State) :
  saveDocument_onsuccess doc closure s =
  {| routeDocId := routeDocId s; document := document s; isModalOpen := isModalOpen s;
     documents := documents s; searchTerm := searchTerm s;
     showSaveIndicator := true;
     saveTimeout := Some (nextTimer s);
     saveDocument :=
       arm (document s) (now s) {| closure_saveTimeout := Some (nextTimer s); pending := None |};
     now := now s; nextTimer := S (nextTimer s);
     timers :=
       without (saveTimeout s)
         (without closure (timers s) ++ [(nextTimer s, now s + displayDuration)]);
     detached := detached s ++ orphan (saveDocument s);
     requests := requests s ++ [ReqPut doc];
     store := store s; puts := puts s ++ [doc]; notices := notices s |}.
Proof.
  unfold saveDocument_onsuccess, setSaveTimeout, autosave_effect, arm, call_debounced, orphan.
  rewrite !clearTimeout_unfold. simpl.
  destruct (pending (saveDocument s)); simpl; destruct (wellFormed (document s)); simpl;
    rewrite ?app_nil_r; reflexivity.
Qed.

Lemma navigate_unfold (id : string) (s : State) :
  navigate id s =
  set_requests
    (requests s ++
       if decide (routeDocId s = Some id) then []
       else if truthy id then [ReqOpenLoad id] else [])
    (set_routeDocId (Some id) s).
Proof.
  unfold navigate. case_decide as Hr.
  - destruct s; simpl in *. subst. unfold set_requests, set_routeDocId; simpl.
    by rewrite app_nil_r.
  - destruct (truthy id); [done|]. destruct s; unfold set_requests; simpl.
    by rewrite app_nil_r.
Qed.

(** [simpl_step] brings one handler into the form "the old state with
    these fields replaced". *)
Ltac simpl_step :=
  rewrite ?tick_unfold, ?setDocument_unfold, ?saveDocument_onsuccess_unfold,
    ?navigate_unfold, ?clearTimeout_unfold;
  unfold handleManualSave, call_debounced, loadAllDocuments, loadDocument,
    deleteDocument, issue, notify;
  simpl.

(** ** Manual save *)

Lemma step_notices (s : State) (e : Event) :
  ∃ more, notices (step s e) = notices s ++ more.
Proof.
  assert (Hnil : ∃ more, notices s = notices s ++ more) by (exists []; by rewrite app_nil_r).
  destruct e; simpl; simpl_step; try done; try by eexists.
  - destruct (requests s) as [|r rs]; [done|].
    destruct r; simpl; simpl_step; try done; try by eexists.
    destruct (idb_get id _); simpl_step; done.
  - destruct (requests s) as [|r rs]; [done|].
    destruct r; simpl; simpl_step; try done; by eexists.
Qed.

Lemma run_cons (s : State) (e : Event) (tr : list Event) :
  run s (e :: tr) = run (step s e) tr.
Proof. reflexivity. Qed.

Lemma run_app (s : State) (tr1 tr2 : list Event) :
  run s (tr1 ++ tr2) = run (run s tr1) tr2.
Proof. apply foldl_app. Qed.

Lemma run_notices (tr : list Event) (s : State) :
  ∃ more, notices (run s tr) = notices s ++ more.
Proof.
  revert s. induction tr as [|e tr IH]; intros s.
  - exists []. by rewrite app_nil_r.
  - rewrite run_cons.
    destruct (IH (step s e)) as [m1 H1]. destruct (step_notices s e) as [m2 H2].
    exists (m2 ++ m1). by rewrite H1, H2, <- app_assoc.
Qed.

(** C10.  For every state in which the manual save action is invoked,
    the handler itself adds the report "Document saved successfully":
    in that same step no request reaches the database, the store is as
    before and no put has been issued.  Whatever happens afterwards
    (the put succeeds, fails or never runs), the report stays. *)
Theorem manual_save_reports_at_once (s : State) :
  let s' := step s ManualSave in
  notices s' = notices s ++ [Success "Document saved successfully"]
  ∧ requests s' = requests s
  ∧ store s' = store s
  ∧ puts s' = puts s
  ∧ ∀ tr, ∃ more,
      notices (run s' tr)
      = notices s ++ [Success "Document saved successfully"] ++ more.
Proof.
  simpl. repeat split.
  intros tr. destruct (run_notices tr (handleManualSave s)) as [more ->].
  exists more. simpl. by rewrite <- app_assoc.
Qed.

(** ** Saves that are under way *)

(** A save is under way while a debounced function holds a document for
    its deadline, while its open request waits, and while its put
    waits.  [Outstanding P s]: every document held this way satisfies
    [P]. *)
Definition carries (P : Document → Prop) (D : Debounced) : Prop :=
  ∀ doc t, pending D = Some (doc, t) → P doc.

Definition req_carries (P : Document → Prop) (r : Request) : Prop :=
  match r with
  | ReqOpenSave doc _ | ReqPut doc => P doc
  | _ => True
  end.

Record Outstanding (P : Document → Prop) (s : State) : Prop := mkOutstanding {
  out_current : carries P (saveDocument s);
  out_detached : Forall (carries P) (detached s);
  out_requests : Forall (req_carries P) (requests s)
}.

Lemma arm_carries (P : Document → Prop) (v : Document) (t : nat) (D : Debounced) :
  carries P D → (wellFormed v = true → P v) → carries P (arm v t D).
Proof.
  intros HD Hv. unfold arm. destruct (wellFormed v); [|done].
  intros doc t' [= <- _]. by apply Hv.
Qed.

Lemma disarm_carries (P : Document → Prop) (D : Debounced) : carries P (disarm D).
Proof. intros doc t. discriminate. Qed.

Lemma fire_carries (P : Document → Prop) (D : Debounced) :
  carries P D → Forall (req_carries P) (fire D).
Proof.
  intros HD. unfold fire. destruct (pending D) as [[doc t]|] eqn:Hp; repeat constructor.
  simpl. by eapply HD.
Qed.

Lemma filter_Forall {A : Type} (P : A → Prop) (f : A → bool) (l : list A) :
  Forall P l → Forall P (List.filter f l).
Proof.
  induction 1 as [|x l Hx _ IH]; simpl; [constructor|].
  destruct (f x); [by constructor | done].
Qed.

Lemma orphan_carries (P : Document → Prop) (D : Debounced) :
  carries P D → Forall (carries P) (orphan D).
Proof. intros HD. unfold orphan. destruct (pending D); by repeat constructor. Qed.

Lemma step_document (s : State) (e : Event) :
  document (step s e) =
  match e, requests s with
  | TitleChange v, _ => {| docId := docId (document s); title := v; body := body (document s) |}
  | BodyChange v, _ => {| docId := docId (document s); title := title (document s); body := v |}
  | DbSuccess, ReqGet id :: _ => default (untitled id) (idb_get id (store s))
  | _, _ => document s
  end.
Proof.
  destruct e; simpl; simpl_step; try done.
  - destruct (requests s) as [|r rs]; [done|].
    destruct r; simpl; simpl_step; try done.
    destruct (idb_get id _); simpl_step; done.
  - destruct (requests s) as [|r rs]; [done|].
    destruct r; simpl; simpl_step; done.
Qed.

(** One event keeps [Outstanding P] when the document that the event
    hands to the debounced function, if any, satisfies [P]: the manual
    save hands over the current document, every other event only a
    document that passes the autosave gate. *)
Lemma step_outstanding (P : Document → Prop) (s : State) (e : Event) :
  Outstanding P s →
  (e = ManualSave ∨ wellFormed (document (step s e)) = true → P (document (step s e))) →
  Outstanding P (step s e).
Proof.
  intros [Hc Hd Hr] Harm. rewrite step_document in Harm.
  assert (Htail : ∀ r rs, requests s = r :: rs → req_carries P r ∧ Forall (req_carries P) rs).
  { intros r rs Hrs. rewrite Hrs in Hr. by apply Forall_cons. }
  destruct e; simpl; simpl_step.
  - split; simpl.
    + destruct (due _ _); [apply disarm_carries | done].
    + by apply filter_Forall.
    + apply Forall_app. split; [done|].
      apply flat_map_Forall with (P := carries P); [apply fire_carries|].
      by apply fired_Forall.
  - split; simpl; [apply arm_carries|..]; auto.
  - split; simpl; [apply arm_carries|..]; auto.
  - split; simpl; [|done..]. intros doc t Hp. simpl in Hp. injection Hp as <- _.
    apply Harm. by left.
  - split; simpl; [done..|]. apply Forall_app. split; [done | by repeat constructor].
  - by split.
  - by split.
  - split; simpl; [done..|]. apply Forall_app. split; [done|].
    case_decide; [constructor|]. destruct (truthy id); by repeat constructor.
  - split; simpl; [done..|]. apply Forall_app. split; [done | by repeat constructor].
  - destruct (requests s) as [|r rs] eqn:Hrs; [split; try done; by rewrite Hrs|].
    destruct (Htail _ _ eq_refl) as [Hr1 Hr2].
    destruct r as [|id|id|doc closure|doc|id fresh|id| |]; simpl; simpl_step.
    + by split.
    + split; simpl; [done..|]. apply Forall_app. split; [done | by repeat constructor].
    + assert (Hdoc : idb_get id (store s) = None ∧ default (untitled id) (idb_get id (store s)) = untitled id
                     ∨ ∃ d, idb_get id (store s) = Some d ∧ default (untitled id) (idb_get id (store s)) = d).
      { destruct (idb_get id (store s)); eauto. }
      destruct Hdoc as [[Hg Hdoc]|(d & Hg & Hdoc)]; rewrite Hdoc in Harm; rewrite Hg;
        simpl_step; (split; simpl; [apply arm_carries|..]; auto).
    + split; simpl.
      * apply arm_carries; [intros ? ?; discriminate | auto].
      * apply Forall_app. split; [done | by apply orphan_carries].
      * apply Forall_app. split; [done | by repeat constructor].
    + by split.
    + split; simpl; [done..|]. rewrite <- !app_assoc.
      apply Forall_app. split; [done|]. simpl.
      repeat constructor. case_decide; [constructor|].
      destruct (truthy fresh); by repeat constructor.
    + by split.
    + split; simpl; [done..|]. apply Forall_app. split; [done | by repeat constructor].
    + by split.
  - destruct (requests s) as [|r rs] eqn:Hrs; [split; try done; by rewrite Hrs|].
    destruct (Htail _ _ eq_refl) as [Hr1 Hr2].
    destruct r; simpl; simpl_step; by split.
Qed.

(** A put is issued by the [onsuccess] handler of a save's open request
    and by nothing else. *)
Definition put_of (e : Event) (s : State) : list Document :=
  match e, requests s with
  | DbSuccess, ReqOpenSave doc _ :: _ => [doc]
  | _, _ => []
  end.

Lemma step_puts (s : State) (e : Event) :
  puts (step s e) = puts s ++ put_of e s.
Proof.
  unfold put_of.
  destruct e; simpl; simpl_step; rewrite ?app_nil_r; try done.
  - destruct (requests s) as [|r rs]; [by rewrite app_nil_r|].
    destruct r; simpl; simpl_step; rewrite ?app_nil_r; try done.
    destruct (idb_get id _); simpl_step; done.
  - destruct (requests s) as [|r rs]; [done|].
    destruct r; simpl; simpl_step; by rewrite ?app_nil_r.
Qed.

Lemma step_puts_Forall (P : Document → Prop) (s : State) (e : Event) :
  Outstanding P s → Forall P (puts s) → Forall P (puts (step s e)).
Proof.
  intros [_ _ Hr] Hp. rewrite step_puts. apply Forall_app. split; [done|].
  unfold put_of. destruct e; try constructor.
  destruct (requests s) as [|[] rs]; try constructor; [|constructor].
  by apply Forall_cons in Hr as [Hr _].
Qed.

Lemma step_store (s : State) (e : Event) :
  store (step s e) =
  match e, requests s with
  | DbSuccess, ReqPut doc :: _ => idb_put doc (store s)
  | DbSuccess, ReqDelete id :: _ => idb_delete id (store s)
  | _, _ => store s
  end.
Proof.
  destruct e; simpl; simpl_step; try done.
  - destruct (requests s) as [|r rs]; [done|].
    destruct r; simpl; simpl_step; try done.
    destruct (idb_get id _); simpl_step; done.
  - destruct (requests s) as [|r rs]; [done|].
    destruct r; simpl; simpl_step; done.
Qed.

(** ** The autosave gate *)

Definition populated (d : Document) : Prop :=
  docId d ≠ "" ∧ title d ≠ "" ∧ body d ≠ "".

Lemma wellFormed_populated (d : Document) : wellFormed d = true ↔ populated d.
Proof.
  unfold wellFormed, populated, truthy.
  rewrite !andb_true_iff, !bool_decide_eq_true. tauto.
Qed.

Lemma untitled_not_wellFormed (id : string) : wellFormed (untitled id) = false.
Proof. unfold wellFormed. simpl. apply andb_false_r. Qed.

Lemma mount_outstanding (P : Document → Prop) (param : option string) (uuid : string)
    (st : gmap string Document) :
  Outstanding P (mount param uuid st).
Proof.
  unfold mount, autosave_effect. simpl.
  assert (Hdoc : ∀ s, wellFormed (document s) = false →
                      (if wellFormed (document s) then call_debounced (document s) s else s) = s).
  { intros s ->. done. }
  destruct param as [i|]; [destruct (truthy i)|];
    (rewrite Hdoc; [|apply untitled_not_wellFormed]);
    (split; simpl; [intros ? ?; discriminate | constructor | by repeat constructor]).
Qed.

Lemma mount_puts (param : option string) (uuid : string) (st : gmap string Document) :
  puts (mount param uuid st) = [].
Proof.
  unfold mount, autosave_effect.
  destruct param as [i|]; [destruct (truthy i)|]; simpl;
    rewrite untitled_not_wellFormed; reflexivity.
Qed.

(** C5, amended.  In every run of the component from its first render
    in which the manual save action is not used, every document handed
    to [store.put] has a non-empty [docId], [title] and [body].  (The
    manual save action hands the current document over without the
    check, see [manual_save_puts_blank].) *)
Theorem autosave_puts_populated (param : option string) (uuid : string)
    (st : gmap string Document) (tr : list Event) :
  Forall (λ e, e ≠ ManualSave) tr →
  Forall populated (puts (run (mount param uuid st) tr)).
Proof.
  intros Htr.
  cut (Outstanding populated (run (mount param uuid st) tr)
       ∧ Forall populated (puts (run (mount param uuid st) tr))); [tauto|].
  generalize (mount_outstanding populated param uuid st).
  assert (Hp : Forall populated (puts (mount param uuid st)))
    by (rewrite mount_puts; constructor).
  revert Hp. generalize (mount param uuid st) as s.
  induction Htr as [|e tr He _ IH]; intros s Hp Ho; [done|].
  rewrite run_cons. apply IH.
  - by apply step_puts_Forall.
  - apply step_outstanding; [done|].
    intros [?|Hw]; [done | by apply wellFormed_populated].
Qed.

Definition typing : list Event :=
  [DbSuccess; DbSuccess; DbSuccess; BodyChange "<p>x</p>"; Tick 1000; DbSuccess; DbSuccess].

Lemma autosave_puts_populated_witness :
  Forall (λ e, e ≠ ManualSave) typing
  ∧ Forall populated (puts (run (mount (Some "a") "u" ∅) typing)).
Proof.
  assert (H : Forall (λ e, e ≠ ManualSave) typing) by (repeat constructor; discriminate).
  split; [exact H | exact (autosave_puts_populated (Some "a") "u" ∅ typing H)].
Defined.

(** The claim as stated fails: on a document that was just opened and
    never edited, the manual save action puts the placeholder, whose
    body is empty. *)
Lemma manual_save_puts_blank :
  let s := run (mount (Some "a") "u" ∅)
             [DbSuccess; DbSuccess; DbSuccess; ManualSave; Tick 1000; DbSuccess; DbSuccess] in
  puts s = [untitled "a"]
  ∧ store s !! "a" = Some (untitled "a")
  ∧ ¬ Forall populated (puts s).
Proof.
  vm_compute. split; [reflexivity|]. split; [reflexivity|].
  intros H. apply Forall_cons in H as [(_ & _ & Hb) _]. by apply Hb.
Qed.

(** ** A document with an empty title or body *)

Definition blank (d : Document) : Prop := title d = "" ∨ body d = "".

Lemma blank_not_wellFormed (d : Document) : blank d → wellFormed d = false.
Proof.
  unfold blank, wellFormed, truthy. intros [->| ->]; simpl.
  - by rewrite andb_false_r.
  - apply andb_false_r.
Qed.

(** The document is blank after every event of the trace. *)
Fixpoint stays_blank (s : State) (tr : list Event) : Prop :=
  match tr with
  | [] => True
  | e :: tr' => blank (document (step s e)) ∧ stays_blank (step s e) tr'
  end.

(** No save is under way. *)
Definition settled (s : State) : Prop := Outstanding (λ _, False) s.

Lemma settled_no_put (s : State) (e : Event) : settled s → put_of e s = [].
Proof.
  intros [_ _ Hr]. unfold put_of. destruct e; try done.
  destruct (requests s) as [|[] rs]; try done.
  by apply Forall_cons in Hr as [[] _].
Qed.

Lemma settled_store (s : State) (e : Event) : settled s → store (step s e) ⊆ store s.
Proof.
  intros [_ _ Hr]. rewrite step_store. destruct e; try done.
  destruct (requests s) as [|[] rs]; try done.
  - by apply Forall_cons in Hr as [[] _].
  - apply delete_subseteq.
Qed.

(** C9, amended.  From a state in which no save is under way, and for
    as long as the title or the body of the in-memory document is
    empty and the manual save action is not used, no put is issued and
    no stored record is overwritten: every record still in the store is
    the record that was there before.  (A save that was already under
    way when the field became empty still lands, and the manual save
    action saves the blank document, see [cleared_body_saved].) *)
Theorem blank_document_not_saved (s : State) (tr : list Event) :
  settled s →
  Forall (λ e, e ≠ ManualSave) tr →
  stays_blank s tr →
  puts (run s tr) = puts s ∧ store (run s tr) ⊆ store s.
Proof.
  intros Hs Htr. revert s Hs.
  induction Htr as [|e tr He _ IH]; intros s Hs Hb; [done|].
  destruct Hb as [Hb1 Hb2]. rewrite run_cons.
  assert (Hs' : settled (step s e)).
  { apply step_outstanding; [done|].
    intros [?|Hw]; [done|]. apply blank_not_wellFormed in Hb1. congruence. }
  destruct (IH _ Hs' Hb2) as [IHp IHs]. split.
  - by rewrite IHp, step_puts, settled_no_put, app_nil_r.
  - etrans; [exact IHs | by apply settled_store].
Qed.

Definition report : Document := {| docId := "a"; title := "Report"; body := "<p>x</p>" |}.

(** The stored report is opened, its body is cleared, and the save that
    the load had started is left to finish. *)
Definition cleared : State :=
  run (mount (Some "a") "u" {[ "a" := report ]})
      [DbSuccess; DbSuccess; DbSuccess; BodyChange ""; Tick 1000; DbSuccess; DbSuccess].

Definition idling : list Event :=
  [Tick 5000; TitleChange "Draft"; Tick 5000; OpenModal; DbSuccess; DbSuccess; Tick 5000].

Lemma blank_document_not_saved_witness :
  settled cleared
  ∧ Forall (λ e, e ≠ ManualSave) idling
  ∧ stays_blank cleared idling
  ∧ puts (run cleared idling) = puts cleared
  ∧ store (run cleared idling) ⊆ store cleared.
Proof.
  assert (H1 : settled cleared).
  { split; vm_compute; [intros ? ?; discriminate | constructor | constructor]. }
  assert (H2 : Forall (λ e, e ≠ ManualSave) idling) by (repeat constructor; discriminate).
  assert (H3 : stays_blank cleared idling) by (vm_compute; tauto).
  split; [exact H1|]. split; [exact H2|]. split; [exact H3|].
  exact (blank_document_not_saved cleared idling H1 H2 H3).
Defined.

(** The claim as stated fails: after the body of the stored report is
    cleared, the manual save action overwrites the record with the
    empty body. *)
Lemma cleared_body_saved :
  let s := run cleared [ManualSave; Tick 1000; DbSuccess; DbSuccess] in
  store cleared !! "a" = Some report
  ∧ body (document cleared) = ""
  ∧ puts s = puts cleared ++ [ {| docId := "a"; title := "Report"; body := "" |} ]
  ∧ store s !! "a" = Some {| docId := "a"; title := "Report"; body := "" |}.
Proof. vm_compute. repeat split. Qed.

(** ** Opening an identifier that has no record *)

(** [id] has left no trace: no record, no save under way for it, no put
    so far, and if the in-memory document already bears [id] it is
    still the placeholder. *)
Record Fresh (id : string) (s : State) : Prop := mkFresh {
  fresh_store : store s !! id = None;
  fresh_keyed : keyed (store s);
  fresh_document : docId (document s) = id → document s = untitled id;
  fresh_outstanding : Outstanding (λ d, docId d ≠ id) s;
  fresh_puts : Forall (λ d, docId d ≠ id) (puts s)
}.

(** Events that are neither an edit nor the manual save action. *)
Definition hands_off (e : Event) : Prop :=
  match e with
  | TitleChange _ | BodyChange _ | ManualSave => False
  | _ => True
  end.

Lemma step_keyed (s : State) (e : Event) : keyed (store s) → keyed (store (step s e)).
Proof.
  intros Hk. rewrite step_store. destruct e; try done.
  destruct (requests s) as [|[] rs]; try done.
  - by apply idb_put_keyed.
  - by apply idb_delete_keyed.
Qed.

Lemma step_fresh (id : string) (s : State) (e : Event) :
  hands_off e → Fresh id s → Fresh id (step s e).
Proof.
  intros He [Hst Hk Hdoc Hout Hputs].
  assert (Hdoc' : docId (document (step s e)) = id → document (step s e) = untitled id).
  { rewrite step_document. destruct e; try done.
    destruct (requests s) as [|[] rs]; try done.
    unfold idb_get. destruct (store s !! id0) as [d|] eqn:Hd; simpl.
    - intros Hid. apply Hk in Hd as Hkey. congruence.
    - by intros ->. }
  split.
  - rewrite step_store. destruct e; try done.
    destruct (requests s) as [|[] rs] eqn:Hrs; try done.
    + destruct Hout as [_ _ Hr]. rewrite Hrs in Hr.
      apply Forall_cons in Hr as [Hr _]. simpl in Hr.
      unfold idb_put. by rewrite lookup_insert_ne.
    + unfold idb_delete. rewrite lookup_delete. by case_decide.
  - by apply step_keyed.
  - exact Hdoc'.
  - apply step_outstanding; [done|].
    intros [->|Hw] Hid; [done|].
    rewrite (Hdoc' Hid), untitled_not_wellFormed in Hw. discriminate.
  - by apply step_puts_Forall.
Qed.

Lemma run_fresh (id : string) (tr : list Event) (s : State) :
  Forall hands_off tr → Fresh id s → Fresh id (run s tr).
Proof.
  intros Htr. revert s. induction Htr as [|e tr He _ IH]; intros s Hs; [done|].
  rewrite run_cons. by apply IH, step_fresh.
Qed.

Lemma mount_fresh (id : string) (param : option string) (uuid : string)
    (st : gmap string Document) :
  st !! id = None → keyed st → Fresh id (mount param uuid st).
Proof.
  intros Hst Hk.
  assert (Hm : store (mount param uuid st) = st
               ∧ ∃ i, document (mount param uuid st) = untitled i).
  { unfold mount, autosave_effect. destruct param as [i|]; [destruct (truthy i)|]; simpl;
      rewrite untitled_not_wellFormed; simpl; eauto. }
  destruct Hm as [Hm1 [i Hm2]]. split.
  - by rewrite Hm1.
  - by rewrite Hm1.
  - rewrite Hm2. simpl. by intros ->.
  - apply mount_outstanding.
  - rewrite mount_puts. constructor.
Qed.

(** C6, amended.  Let [id] be an identifier that has left no trace.
    Opening [id] and then letting any events happen other than edits
    and the manual save action leaves the store without a record for
    [id]: no put for [id] is issued, [getAll] does not return a
    document with that identifier, and when the lookup of [id]
    completes the in-memory document becomes the placeholder
    [{docId: id, title: "Untitled Document", body: ""}].  (The manual
    save action writes the placeholder although no edit has occurred,
    see [unedited_document_saved].) *)
Theorem opening_fresh_id_writes_nothing (id : string) (s : State) (tr : list Event) :
  Fresh id s →
  Forall hands_off tr →
  let s' := run s (OpenItem id :: tr) in
  store s' !! id = None
  ∧ (∀ d, d ∈ idb_getAll (store s') → docId d ≠ id)
  ∧ Forall (λ d, docId d ≠ id) (puts s')
  ∧ (docId (document s') = id → document s' = untitled id)
  ∧ (∀ rest, requests s' = ReqGet id :: rest → document (step s' DbSuccess) = untitled id).
Proof.
  intros Hs Htr s'.
  assert (Hs' : Fresh id s').
  { apply run_fresh; [by constructor | done]. }
  destruct Hs' as [Hst Hk Hdoc Hout Hputs].
  split; [done|]. split; [|split; [done|split; [done|]]].
  - intros d Hd Hid. apply idb_getAll_lookup in Hd; [|done]. congruence.
  - intros rest Hrest. rewrite step_document, Hrest. unfold idb_get. by rewrite Hst.
Qed.

(** The first document has been opened and left alone. *)
Definition visiting : State :=
  run (mount (Some "a") "u" ∅) [DbSuccess; DbSuccess; DbSuccess].

Definition looking_around : list Event :=
  [DbSuccess; DbSuccess; Tick 3000; OpenModal; DbSuccess; DbSuccess].

Lemma opening_fresh_id_writes_nothing_witness :
  Fresh "b" visiting
  ∧ Forall hands_off looking_around
  ∧ let s' := run visiting (OpenItem "b" :: looking_around) in
    store s' !! "b" = None
    ∧ (∀ d, d ∈ idb_getAll (store s') → docId d ≠ "b")
    ∧ Forall (λ d, docId d ≠ "b") (puts s')
    ∧ (docId (document s') = "b" → document s' = untitled "b")
    ∧ (∀ rest, requests s' = ReqGet "b" :: rest → document (step s' DbSuccess) = untitled "b").
Proof.
  assert (H1 : Fresh "b" visiting).
  { apply run_fresh; [repeat constructor|].
    apply mount_fresh; [reflexivity | intros k d Hkd; by rewrite lookup_empty in Hkd]. }
  assert (H2 : Forall hands_off looking_around) by (repeat constructor).
  split; [exact H1|]. split; [exact H2|].
  exact (opening_fresh_id_writes_nothing "b" visiting looking_around H1 H2).
Defined.

Example visiting_opens_placeholder :
  let s' := run visiting (OpenItem "b" :: looking_around) in
  document s' = untitled "b" ∧ documents s' = [] ∧ puts s' = [].
Proof. vm_compute. repeat split. Qed.

(** The claim as stated fails: a document is opened under an identifier
    without a record, nothing is edited, and the manual save action
    stores the placeholder, which the document list then shows. *)
Lemma unedited_document_saved :
  let tr := [DbSuccess; DbSuccess; DbSuccess; ManualSave; Tick 1000; DbSuccess; DbSuccess;
             OpenModal; DbSuccess; DbSuccess] in
  let s := run (mount (Some "a") "u" ∅) tr in
  Forall (λ e, ∀ v, e ≠ TitleChange v ∧ e ≠ BodyChange v) tr
  ∧ store s !! "a" = Some (untitled "a")
  ∧ documents s = [untitled "a"].
Proof.
  split; [repeat constructor; discriminate|].
  vm_compute. repeat split.
Qed.

(** ** Put, then get *)

(** C7.  For every document [d], [get(d.docId)] on a store into which
    [d] has been put returns [d]; and in the component, when the put of
    [d] and then the lookup of [d.docId] complete, the document handed
    to [setDocument] is [d]. *)
Theorem put_then_get (d : Document) (s : State) (rest : list Request) :
  requests s = ReqPut d :: ReqGet (docId d) :: rest →
  idb_get (docId d) (idb_put d (store s)) = Some d
  ∧ document (run s [DbSuccess; DbSuccess]) = d
  ∧ store (run s [DbSuccess; DbSuccess]) !! docId d = Some d.
Proof.
  intros Hr. split; [apply idb_put_get|].
  unfold run. simpl. rewrite Hr. simpl.
  rewrite idb_put_get. simpl_step. split; [done | apply idb_put_get].
Qed.

Definition memo : Document := {| docId := "m"; title := "Memo"; body := "<p>hello</p>" |}.

Definition memo_written : State :=
  run (mount (Some "a") "u" ∅)
      [DbSuccess; DbSuccess; DbSuccess; OpenItem "m"; Tick 10] .

Lemma put_then_get_witness :
  let s := set_requests [ReqPut memo; ReqGet "m"] memo_written in
  requests s = ReqPut memo :: ReqGet (docId memo) :: []
  ∧ idb_get (docId memo) (idb_put memo (store s)) = Some memo
  ∧ document (run s [DbSuccess; DbSuccess]) = memo
  ∧ store (run s [DbSuccess; DbSuccess]) !! docId memo = Some memo.
Proof.
  split; [reflexivity|].
  exact (put_then_get memo (set_requests [ReqPut memo; ReqGet "m"] memo_written) []
           eq_refl).
Defined.

(** ** The indicator *)

Lemma save_opened (s : State) (doc : Document) (closure : option nat) (rest : list Request) :
  requests s = ReqOpenSave doc closure :: rest →
  step s DbSuccess = saveDocument_onsuccess doc closure (set_requests rest s).
Proof. intros Hr. simpl. by rewrite Hr. Qed.

(** C4, amended.  While the open request of a save of [doc] waits, the
    user opens another identifier [b].  When the request then
    completes, the active identifier is [b], and the handler still
    issues the put of [doc] and switches the indicator on: the
    completion of a save is not checked against the active document. *)
Theorem stale_completion_shows_indicator (s : State) (doc : Document)
    (closure : option nat) (rest : list Request) (b : string) :
  requests s = ReqOpenSave doc closure :: rest →
  docId doc ≠ b →
  let s' := run s [OpenItem b; DbSuccess] in
  routeDocId s' = Some b
  ∧ showSaveIndicator s' = true
  ∧ puts s' = puts s ++ [doc]
  ∧ saveTimeout s' = Some (nextTimer s).
Proof.
  intros Hr _ s'. subst s'. unfold run. simpl. simpl_step.
  rewrite Hr. simpl. simpl_step. done.
Qed.

Definition report_b : Document := {| docId := "b"; title := "Notes"; body := "<p>b</p>" |}.

(** Document "a" has been edited and its debounced save has just
    started: its open request waits. *)
Definition saving_a : State :=
  run (mount (Some "a") "u" {[ "b" := report_b ]})
      [DbSuccess; DbSuccess; DbSuccess; BodyChange "<p>a</p>"; Tick 1000].

Lemma stale_completion_shows_indicator_witness :
  let doc := {| docId := "a"; title := "Untitled Document"; body := "<p>a</p>" |} in
  requests saving_a = ReqOpenSave doc None :: []
  ∧ docId doc ≠ "b"
  ∧ let s' := run saving_a [OpenItem "b"; DbSuccess] in
    routeDocId s' = Some "b"
    ∧ showSaveIndicator s' = true
    ∧ puts s' = puts saving_a ++ [doc]
    ∧ saveTimeout s' = Some (nextTimer saving_a).
Proof.
  intros doc.
  assert (H1 : requests saving_a = ReqOpenSave doc None :: []) by reflexivity.
  assert (H2 : docId doc ≠ "b") by discriminate.
  split; [exact H1|]. split; [exact H2|].
  exact (stale_completion_shows_indicator saving_a doc None [] "b" H1 H2).
Defined.

(** The claim as stated fails: the save of "a" completes after "b" has
    become the active document, and when "b" has been loaded its
    indicator shows "Saved". *)
Lemma stale_completion_marks_other_document :
  let s := run saving_a [OpenItem "b"; DbSuccess; DbSuccess; DbSuccess; DbSuccess] in
  showSaveIndicator saving_a = false
  ∧ routeDocId s = Some "b"
  ∧ document s = report_b
  ∧ puts s = [ {| docId := "a"; title := "Untitled Document"; body := "<p>a</p>" |} ]
  ∧ showSaveIndicator s = true.
Proof. vm_compute. repeat split. Qed.

(** C3, amended.  In a write cycle the indicator is switched on when
    the put is issued.  When the store then reports that the put
    failed, nothing happens: the state is the same except that the
    request is gone, so the indicator stays on, nothing is reported and
    the store keeps what it had.  No retry state is kept: the next
    manual save, and the next edit that passes the gate, hand the whole
    current document to the debounced function. *)
Theorem failed_put_goes_unnoticed (s : State) (doc : Document) (closure : option nat) :
  requests s = [ReqOpenSave doc closure] →
  let s1 := step s DbSuccess in
  let s2 := step s1 DbError in
  showSaveIndicator s1 = true
  ∧ requests s1 = [ReqPut doc]
  ∧ s2 = set_requests [] s1
  ∧ showSaveIndicator s2 = true
  ∧ notices s2 = notices s
  ∧ store s2 = store s
  ∧ pending (saveDocument (step s2 ManualSave)) = Some (document s2, now s2 + quietPeriod)
  ∧ ∀ v, let edited := {| docId := docId (document s2); title := title (document s2);
                          body := v |} in
         wellFormed edited = true →
         pending (saveDocument (step s2 (BodyChange v))) = Some (edited, now s2 + quietPeriod).
Proof.
  intros Hr s1 s2. subst s2 s1. rewrite (save_opened _ _ _ _ Hr).
  rewrite saveDocument_onsuccess_unfold. simpl.
  repeat split.
  intros v Hw. rewrite setDocument_unfold. simpl.
  unfold arm at 1. by rewrite Hw.
Qed.

Lemma failed_put_goes_unnoticed_witness :
  let doc := {| docId := "a"; title := "Untitled Document"; body := "<p>a</p>" |} in
  requests saving_a = [ReqOpenSave doc None]
  ∧ let s2 := run saving_a [DbSuccess; DbError] in
    showSaveIndicator s2 = true ∧ notices s2 = notices saving_a ∧ store s2 = store saving_a.
Proof.
  intros doc.
  assert (H1 : requests saving_a = [ReqOpenSave doc None]) by reflexivity.
  split; [exact H1|].
  destruct (failed_put_goes_unnoticed saving_a doc None H1)
    as (_ & _ & _ & Hi & Hn & Hs & _).
  split; [exact Hi|]. split; [exact Hn | exact Hs].
Defined.

(** The claim as stated fails: the put of the cycle fails, the
    indicator shows "Saved" all the same and no failure is reported. *)
Lemma failed_put_shows_saved :
  let s := run saving_a [DbSuccess; DbError] in
  store s !! "a" = None
  ∧ requests s = []
  ∧ showSaveIndicator s = true
  ∧ notices s = [].
Proof. vm_compute. repeat split. Qed.

(** ** Manual save and the quiet period *)

Lemma due_armed (t : nat) (c : option nat) (doc : Document) (dl : nat) :
  due t {| closure_saveTimeout := c; pending := Some (doc, dl) |} = bool_decide (dl ≤ t).
Proof. reflexivity. Qed.

(** C2, amended.  In a state where a debounce timer is pending (and no
    other save is under way), the manual save action calls the same
    debounced function as the autosave effect: the pending snapshot is
    replaced by the current document and the quiet period starts
    again.  No put is issued before 1000 ms have passed; once they
    have, the save opens the database and its handler issues exactly
    one put, of the current snapshot, and switches the indicator on.
    For a document that passes the gate the step is the step of the
    autosave effect plus the success notice. *)
Theorem manual_save_waits_for_quiet_period (s : State) :
  is_Some (pending (saveDocument s)) →
  detached s = [] →
  requests s = [] →
  let s1 := step s ManualSave in
  pending (saveDocument s1) = Some (document s, now s + quietPeriod)
  ∧ requests s1 = []
  ∧ puts s1 = puts s
  ∧ (∀ dt, dt < quietPeriod →
       let s2 := step s1 (Tick dt) in
       requests s2 = [] ∧ puts s2 = puts s
       ∧ pending (saveDocument s2) = Some (document s, now s + quietPeriod))
  ∧ (∀ dt, quietPeriod ≤ dt →
       let s3 := run s1 [Tick dt; DbSuccess] in
       puts s3 = puts s ++ [document s]
       ∧ requests s3 = [ReqPut (document s)]
       ∧ showSaveIndicator s3 = true)
  ∧ (wellFormed (document s) = true →
       s1 = notify (Success "Document saved successfully") (autosave_effect s)).
Proof.
  intros _ Hd Hr s1. subst s1. simpl. simpl_step.
  split; [done|]. split; [done|]. split; [done|]. split; [|split].
  - intros dt Hdt. rewrite tick_unfold. simpl.
    rewrite due_armed, bool_decide_eq_false_2 by lia.
    rewrite fired_none; simpl.
    + by rewrite Hr.
    + rewrite Hd. constructor.
    + rewrite due_armed. apply bool_decide_eq_false_2. lia.
  - intros dt Hdt. unfold run. simpl. rewrite tick_unfold. simpl.
    unfold fired. simpl. rewrite Hd, Hr. simpl.
    rewrite !due_armed, !bool_decide_eq_true_2 by lia. simpl.
    rewrite saveDocument_onsuccess_unfold. simpl. done.
  - intros Hw. unfold autosave_effect. by rewrite Hw.
Qed.

(** The user has typed; the debounce timer has 500 ms left. *)
Definition typed : State :=
  run (mount (Some "a") "u" ∅)
      [DbSuccess; DbSuccess; DbSuccess; BodyChange "<p>a</p>"; Tick 300;
       TitleChange "Plan"; Tick 500].

Lemma manual_save_waits_for_quiet_period_witness :
  is_Some (pending (saveDocument typed))
  ∧ detached typed = []
  ∧ requests typed = []
  ∧ let s3 := run (step typed ManualSave) [Tick 1000; DbSuccess] in
    puts s3 = puts typed ++ [document typed]
    ∧ requests s3 = [ReqPut (document typed)]
    ∧ showSaveIndicator s3 = true.
Proof.
  assert (H1 : is_Some (pending (saveDocument typed))) by (vm_compute; eauto).
  assert (H2 : detached typed = []) by reflexivity.
  assert (H3 : requests typed = []) by reflexivity.
  split; [exact H1|]. split; [exact H2|]. split; [exact H3|].
  destruct (manual_save_waits_for_quiet_period typed H1 H2 H3) as (_ & _ & _ & _ & H & _).
  apply (H 1000). unfold quietPeriod. lia.
Defined.

(** The claim as stated fails: with a debounce timer pending, the
    manual save action issues no put, neither at once nor within the
    next 999 ms; it only moves the deadline. *)
Lemma manual_save_is_debounced :
  let s1 := step typed ManualSave in
  let s2 := step s1 (Tick 999) in
  pending (saveDocument typed)
    = Some ({| docId := "a"; title := "Plan"; body := "<p>a</p>" |}, 1300)
  ∧ now typed = 800
  ∧ puts s1 = [] ∧ requests s1 = []
  ∧ puts s2 = [] ∧ requests s2 = []
  ∧ pending (saveDocument s2)
    = Some ({| docId := "a"; title := "Plan"; body := "<p>a</p>" |}, 1800).
Proof. vm_compute. repeat split. Qed.

(** ** Debounce coalescing *)

(** A burst of body edits: the first one, then each next one a gap of
    some milliseconds after the one before. *)
Definition burst (v0 : string) (more : list (nat * string)) : list Event :=
  BodyChange v0 :: flat_map (λ gv, [Tick gv.1; BodyChange gv.2]) more.

Definition last_body (v0 : string) (more : list (nat * string)) : string :=
  default v0 (last (v0 :: more.*2)).

Definition with_body (d : Document) (v : string) : Document :=
  {| docId := docId d; title := title d; body := v |}.

(** The state in the middle of a burst on document [d]: the current
    debounced function holds the latest snapshot, and nothing else is
    under way. *)
Definition bursting (d : Document) (ps : list Document) (v : string) (s : State) : Prop :=
  detached s = [] ∧ requests s = [] ∧ puts s = ps
  ∧ document s = with_body d v
  ∧ pending (saveDocument s) = Some (with_body d v, now s + quietPeriod).

Lemma with_body_wellFormed (d : Document) (v : string) :
  docId d ≠ "" → title d ≠ "" → v ≠ "" → wellFormed (with_body d v) = true.
Proof. intros. apply wellFormed_populated. by repeat split. Qed.

Lemma bursting_edit (d : Document) (ps : list Document) (v0 v : string) (g : nat) (s : State) :
  docId d ≠ "" → title d ≠ "" → g < quietPeriod → v ≠ "" →
  bursting d ps v0 s → bursting d ps v (run s [Tick g; BodyChange v]).
Proof.
  intros Hid Htitle Hg Hv (Hd & Hr & Hp & Hdoc & Hc).
  unfold run. simpl. rewrite setDocument_unfold, tick_unfold. simpl.
  assert (Hdue : due (now s + g) (saveDocument s) = false).
  { unfold due. rewrite Hc. apply bool_decide_eq_false_2. lia. }
  rewrite Hdue, Hdoc. simpl. fold (with_body d v).
  unfold arm. rewrite with_body_wellFormed by done.
  rewrite fired_none by (done || rewrite Hd; constructor).
  unfold bursting. simpl. rewrite Hd, Hr. done.
Qed.

Lemma last_body_cons (v0 v : string) (g : nat) (more : list (nat * string)) :
  last_body v0 ((g, v) :: more) = last_body v more.
Proof.
  unfold last_body.
  change (last (v0 :: ((g, v) :: more).*2)) with (last (v :: more.*2)).
  assert (Hs : is_Some (last (v :: more.*2))) by (by apply last_is_Some).
  destruct Hs as [w Hw]. by rewrite Hw.
Qed.

Lemma bursting_run (d : Document) (ps : list Document) (more : list (nat * string))
    (v0 : string) (s : State) :
  docId d ≠ "" → title d ≠ "" →
  Forall (λ gv, gv.1 < quietPeriod ∧ gv.2 ≠ "") more →
  bursting d ps v0 s →
  bursting d ps (last_body v0 more)
    (run s (flat_map (λ gv, [Tick gv.1; BodyChange gv.2]) more)).
Proof.
  intros Hid Htitle Hmore. revert v0 s.
  induction Hmore as [|[g v] more [Hg Hv] _ IH]; intros v0 s Hs; [done|].
  rewrite last_body_cons.
  change (flat_map _ ((g, v) :: more))
    with ([Tick g; BodyChange v] ++ flat_map (λ gv, [Tick gv.1; BodyChange gv.2]) more).
  rewrite run_app. apply IH. by apply bursting_edit with (v0 := v0).
Qed.

(** X17.  While one debounced function receives the whole burst and no
    save of an earlier burst completes in between, the burst is
    coalesced: nothing is put during the burst, and 1000 ms after its
    last edit one save starts, which puts the last snapshot. *)
Lemma burst_coalesces (s : State) (v0 : string) (more : list (nat * string)) :
  detached s = [] →
  requests s = [] →
  docId (document s) ≠ "" →
  title (document s) ≠ "" →
  v0 ≠ "" →
  Forall (λ gv, gv.1 < quietPeriod ∧ gv.2 ≠ "") more →
  let final := with_body (document s) (last_body v0 more) in
  let s1 := run s (burst v0 more) in
  puts s1 = puts s
  ∧ requests s1 = []
  ∧ document s1 = final
  ∧ let s2 := run s1 [Tick quietPeriod; DbSuccess] in
    puts s2 = puts s ++ [final] ∧ requests s2 = [ReqPut final].
Proof.
  intros Hd Hr Hid Htitle Hv0 Hmore final s1.
  assert (H0 : bursting (document s) (puts s) v0 (step s (BodyChange v0))).
  { simpl. rewrite setDocument_unfold. unfold bursting, arm. simpl.
    fold (with_body (document s) v0). by rewrite with_body_wellFormed. }
  assert (H1 : bursting (document s) (puts s) (last_body v0 more) s1).
  { unfold s1, burst. rewrite run_cons. by apply bursting_run. }
  clearbody s1.
  destruct H1 as (Hd1 & Hr1 & Hp1 & Hdoc1 & Hc1). fold final in Hdoc1, Hc1.
  split; [done|]. split; [done|]. split; [done|].
  unfold run. simpl. rewrite tick_unfold. simpl.
  assert (Hfired : fired (now s1 + quietPeriod) s1 = [saveDocument s1]).
  { unfold fired. rewrite Hd1. simpl. unfold due. rewrite Hc1.
    by rewrite bool_decide_eq_true_2 by lia. }
  rewrite Hfired, Hr1. simpl. unfold fire. rewrite Hc1. simpl.
  rewrite saveDocument_onsuccess_unfold. simpl. by rewrite Hp1.
Qed.

(** The burst that straddles the completion of an earlier save.  The
    first edit is saved after its quiet period.  While the open request
    of that save waits, the second edit arrives at the old debounced
    function; the completion then replaces [saveDocument], and the
    autosave effect hands the same snapshot to the new function 1 ms
    later; the third edit follows 499 ms after that. *)
Definition straddling : list Event :=
  [DbSuccess; DbSuccess; DbSuccess;
   BodyChange "x"; Tick 1000;
   BodyChange "xy"; Tick 1; DbSuccess; Tick 499;
   BodyChange "xyz"; Tick 500; DbSuccess; DbSuccess;
   Tick 1000; DbSuccess; DbSuccess; DbSuccess; DbSuccess].

(** C1, on the failing input.  The three notifications that carry "xy",
    "xy" and "xyz" reach the scheduler at 1000 ms, 1001 ms and 1500 ms,
    each less than 1000 ms from the others.  The code issues three puts
    for them: the intermediate snapshot "xy" is put on its own, and the
    last snapshot "xyz" is put twice. *)
Theorem straddling_burst_is_put_three_times :
  let d := λ v, {| docId := "a"; title := "Untitled Document"; body := v |} in
  puts (run (mount (Some "a") "u" ∅) straddling) = [d "x"; d "xy"; d "xyz"; d "xyz"]
  ∧ puts (run (mount (Some "a") "u" ∅) (take 13 straddling)) = [d "x"; d "xy"]
  ∧ store (run (mount (Some "a") "u" ∅) (take 15 straddling)) !! "a" = Some (d "xy").
Proof. vm_compute. repeat split. Qed.

(** A single edit followed by silence is saved again and again: every
    completed save replaces [saveDocument], which runs the autosave
    effect once more. *)
Example one_edit_is_saved_repeatedly :
  let d := {| docId := "a"; title := "Untitled Document"; body := "x" |} in
  puts (run (mount (Some "a") "u" ∅)
          [DbSuccess; DbSuccess; DbSuccess; BodyChange "x";
           Tick 1000; DbSuccess; DbSuccess;
           Tick 1000; DbSuccess; DbSuccess;
           Tick 1000; DbSuccess; DbSuccess]) = [d; d; d].
Proof. vm_compute. reflexivity. Qed.

(** * Further properties of the component *)

(** ** The indicator and its timer *)

(** The part of the state that the indicator depends on. *)
Definition indicator_view (s : State) : bool * option nat * nat * nat * list (nat * nat) :=
  (showSaveIndicator s, saveTimeout s, now s, nextTimer s, timers s).

Lemma step_indicator_view (s : State) (e : Event) :
  indicator_view (step s e) =
  match e, requests s with
  | Tick dt, _ =>
      (if existsb (λ p, bool_decide (p.2 ≤ now s + dt)) (timers s)
       then false else showSaveIndicator s,
       saveTimeout s, now s + dt, nextTimer s,
       List.filter (λ p, negb (bool_decide (p.2 ≤ now s + dt))) (timers s))
  | DbSuccess, ReqOpenSave _ closure :: _ =>
      (true, Some (nextTimer s), now s, S (nextTimer s),
       without (saveTimeout s)
         (without closure (timers s) ++ [(nextTimer s, now s + displayDuration)]))
  | _, _ => indicator_view s
  end.
Proof.
  unfold indicator_view.
  destruct e; simpl; simpl_step; try done.
  - destruct (requests s) as [|r rs]; [done|].
    destruct r; simpl; simpl_step; try done.
    destruct (idb_get id _); simpl_step; done.
  - destruct (requests s) as [|r rs]; [done|].
    destruct r; simpl; simpl_step; done.
Qed.





Lemma without_same (i dl : nat) : without (Some i) [(i, dl)] = [].
Proof. simpl. by rewrite Nat.eqb_refl. Qed.








(** ** The autosave cycle *)

(** One round: the quiet period passes, the open request of the save
    completes, the put completes. *)
Definition round : list Event := [Tick quietPeriod; DbSuccess; DbSuccess].

Fixpoint rounds (n : nat) : list Event :=
  match n with
  | 0 => []
  | S n' => round ++ rounds n'
  end.

(** The in-memory document [d] is armed in the current debounced
    function and nothing else is under way. *)
Definition armed_with (d : Document) (s : State) : Prop :=
  requests s = [] ∧ detached s = [] ∧ document s = d
  ∧ ∃ t, pending (saveDocument s) = Some (d, t) ∧ t ≤ now s + quietPeriod.

Lemma round_armed (d : Document) (s : State) :
  wellFormed d = true → armed_with d s →
  armed_with d (run s round)
  ∧ puts (run s round) = puts s ++ [d]
  ∧ store (run s round) = idb_put d (store s).
Proof.
  intros Hw (Hr & Hd & Hdoc & t & Hp & Ht).
  unfold run, round. simpl. rewrite tick_unfold. simpl.
  assert (Hfired : fired (now s + quietPeriod) s = [saveDocument s]).
  { unfold fired. rewrite Hd. simpl. unfold due. rewrite Hp.
    by rewrite bool_decide_eq_true_2 by lia. }
  rewrite Hfired, Hr. simpl. unfold fire. rewrite Hp. simpl.
  rewrite saveDocument_onsuccess_unfold. simpl.
  unfold due. rewrite Hp, bool_decide_eq_true_2 by lia. simpl.
  unfold armed_with. simpl. rewrite Hd, Hdoc. unfold arm. rewrite Hw. simpl.
  repeat split; try done. by eexists.
Qed.

(** X3.  Autosave does not come to rest.  Once a document that passes
    the gate is armed in the debounced function, every completed save
    arms it again: with no edit at all, [n] rounds of "wait 1000 ms,
    let the requests complete" issue [n] puts of the same document, and
    the store holds that document. *)
Theorem autosave_repeats (d : Document) (n : nat) (s : State) :
  wellFormed d = true →
  armed_with d s →
  let s' := run s (rounds n) in
  puts s' = puts s ++ replicate n d
  ∧ armed_with d s'
  ∧ (0 < n → store s' !! docId d = Some d).
Proof.
  intros Hw. revert s. induction n as [|n IH]; intros s Hs.
  - simpl. rewrite app_nil_r. split; [done|]. split; [done | lia].
  - change (rounds (S n)) with (round ++ rounds n).
    change (replicate (S n) d) with ([d] ++ replicate n d).
    cbv zeta. rewrite run_app.
    destruct (round_armed d s Hw Hs) as (Hs1 & Hp1 & Hst1).
    destruct (IH _ Hs1) as (Hp & Hs' & Hst). split; [|split; [done|]].
    + by rewrite Hp, Hp1, <- app_assoc.
    + intros _. destruct n as [|n].
      * change (run (run s round) (rounds 0)) with (run s round).
        rewrite Hst1. apply idb_put_get.
      * apply Hst. lia.
Qed.

(** A first edit has just been typed. *)
Definition first_edit : State :=
  run (mount (Some "a") "u" ∅) [DbSuccess; DbSuccess; DbSuccess; BodyChange "<p>x</p>"].

Lemma autosave_repeats_witness :
  let d := {| docId := "a"; title := "Untitled Document"; body := "<p>x</p>" |} in
  wellFormed d = true
  ∧ armed_with d first_edit
  ∧ let s' := run first_edit (rounds 3) in
    puts s' = puts first_edit ++ replicate 3 d
    ∧ armed_with d s'
    ∧ (0 < 3 → store s' !! docId d = Some d).
Proof.
  intros d.
  assert (H1 : wellFormed d = true) by reflexivity.
  assert (H2 : armed_with d first_edit).
  { repeat split. exists 1000. split; [reflexivity|]. vm_compute. lia. }
  split; [exact H1|]. split; [exact H2|].
  exact (autosave_repeats d 3 first_edit H1 H2).
Defined.

(** ** Loading a document *)

Lemma idb_put_same (d : Document) (st : gmap string Document) :
  st !! docId d = Some d → idb_put d st = st.
Proof. intros Hd. unfold idb_put. by apply insert_id. Qed.

(** X4.  When the lookup of a stored record [d] completes, [d] becomes
    the in-memory document.  If [d] passes the autosave gate, the load
    itself arms a save of [d]: after the quiet period one put of [d] is
    issued, and the store is left exactly as it was.  If [d] does not
    pass the gate, nothing is armed. *)
Theorem loading_writes_the_record_back (s : State) (id : string) (d : Document) :
  keyed (store s) →
  store s !! id = Some d →
  requests s = [ReqGet id] →
  detached s = [] →
  let s1 := step s DbSuccess in
  document s1 = d
  ∧ docId d = id
  ∧ (wellFormed d = false → saveDocument s1 = saveDocument s ∧ requests s1 = [])
  ∧ (wellFormed d = true →
       let s2 := run s1 round in
       puts s2 = puts s ++ [d] ∧ store s2 = store s ∧ document s2 = d).
Proof.
  intros Hk Hd Hr Hdet s1.
  assert (Hs1 : s1 = set_saveDocument (arm d (now s) (saveDocument s))
                       (set_document d (set_requests [] s))).
  { subst s1. simpl. rewrite Hr. simpl. unfold idb_get. rewrite Hd.
    by rewrite setDocument_unfold. }
  clearbody s1. subst s1.
  split; [done|]. split; [by apply Hk|]. split.
  - intros Hw. unfold arm. rewrite Hw. simpl. by destruct (saveDocument s).
  - intros Hw s2.
    assert (Harmed : armed_with d
              (set_saveDocument (arm d (now s) (saveDocument s))
                 (set_document d (set_requests [] s)))).
    { unfold armed_with, arm. rewrite Hw. simpl. repeat split; try done. by eexists. }
    destruct (round_armed d _ Hw Harmed) as ((_ & _ & Hdoc & _) & Hp & Hst).
    subst s2. rewrite Hp, Hst, Hdoc. simpl. split; [done|]. split; [|done].
    apply idb_put_same. apply Hk in Hd as Hid. by rewrite Hid.
Qed.

(** The stored report is being opened; its lookup is the only request
    that waits. *)
Definition opening_report : State :=
  run (mount (Some "a") "u" {[ "a" := report ]}) [DbSuccess; DbSuccess].

Lemma loading_writes_the_record_back_witness :
  keyed (store opening_report)
  ∧ store opening_report !! "a" = Some report
  ∧ requests opening_report = [ReqGet "a"]
  ∧ detached opening_report = []
  ∧ let s1 := step opening_report DbSuccess in
    document s1 = report
    ∧ (wellFormed report = true →
         let s2 := run s1 round in
         puts s2 = puts opening_report ++ [report] ∧ store s2 = store opening_report
         ∧ document s2 = report).
Proof.
  assert (H1 : keyed (store opening_report)).
  { intros k d. change (store opening_report) with ({[ "a" := report ]} : gmap string Document).
    intros Hkd. apply lookup_singleton_Some in Hkd as [<- <-]. reflexivity. }
  assert (H2 : store opening_report !! "a" = Some report) by reflexivity.
  assert (H3 : requests opening_report = [ReqGet "a"]) by reflexivity.
  assert (H4 : detached opening_report = []) by reflexivity.
  split; [exact H1|]. split; [exact H2|]. split; [exact H3|]. split; [exact H4|].
  destruct (loading_writes_the_record_back opening_report "a" report H1 H2 H3 H4)
    as (Ha & _ & _ & Hb).
  split; [exact Ha | exact Hb].
Defined.

Lemma open_then_edit (s : State) (id v : string) :
  requests s = [] →
  routeDocId s ≠ Some id →
  id ≠ "" →
  run s [OpenItem id; BodyChange v]
  = set_saveDocument (arm (with_body (document s) v) (now s) (saveDocument s))
      (set_document (with_body (document s) v)
         (set_isModalOpen false
            (set_requests [ReqOpenLoad id] (set_routeDocId (Some id) s)))).
Proof.
  intros Hr Hroute Hid.
  assert (Htruthy : truthy id = true) by (by apply bool_decide_eq_true_2).
  unfold run. simpl. rewrite navigate_unfold, setDocument_unfold. simpl.
  rewrite Hr, Htruthy. by destruct (decide (routeDocId s = Some id)).
Qed.

Lemma lookup_completes (s : State) (id : string) :
  requests s = [ReqOpenLoad id] →
  run s [DbSuccess; DbSuccess]
  = set_saveDocument (arm (default (untitled id) (store s !! id)) (now s) (saveDocument s))
      (set_document (default (untitled id) (store s !! id)) (set_requests [] s)).
Proof.
  intros Hr. unfold run. simpl. rewrite Hr. simpl. unfold idb_get.
  destruct (store s !! id); by rewrite setDocument_unfold.
Qed.

(** X5.  Opening another document does not replace the in-memory
    document until the lookup completes.  An edit typed in between is
    applied to the previous document and, if it passes the gate, handed
    to the debounced function under the previous [docId].  When the
    lookup completes, the editor shows the looked-up document (or the
    placeholder) without the edit; if the looked-up record passes the
    gate it takes the place of the edit in the debounced function, so
    the edit is never saved, and if there is no record the edit stays
    armed. *)
Theorem edit_during_load_goes_to_previous_document (s : State) (id v : string) :
  requests s = [] →
  routeDocId s ≠ Some id →
  id ≠ "" →
  let edited := with_body (document s) v in
  let s1 := run s [OpenItem id; BodyChange v] in
  let s2 := run s1 [DbSuccess; DbSuccess] in
  routeDocId s1 = Some id
  ∧ document s1 = edited
  ∧ (wellFormed edited = true →
       pending (saveDocument s1) = Some (edited, now s + quietPeriod))
  ∧ document s2 = default (untitled id) (store s !! id)
  ∧ (∀ d, store s !! id = Some d → wellFormed d = true →
       pending (saveDocument s2) = Some (d, now s + quietPeriod))
  ∧ (store s !! id = None → saveDocument s2 = saveDocument s1).
Proof.
  intros Hr Hroute Hid edited s1 s2.
  pose proof (open_then_edit s id v Hr Hroute Hid) as Hs1.
  fold edited in Hs1. fold s1 in Hs1.
  assert (Hr1 : requests s1 = [ReqOpenLoad id]) by (by rewrite Hs1).
  pose proof (lookup_completes s1 id Hr1) as Hs2. fold s2 in Hs2.
  assert (Hst : store s1 = store s) by (by rewrite Hs1).
  assert (Hnow : now s1 = now s) by (by rewrite Hs1).
  rewrite Hst, Hnow in Hs2. clearbody s2. clearbody s1.
  split; [by rewrite Hs1|]. split; [by rewrite Hs1|]. split.
  { intros Hw. rewrite Hs1. simpl. unfold arm. by rewrite Hw. }
  split; [by rewrite Hs2|]. split.
  - intros d Hd Hw. rewrite Hs2, Hd. simpl. unfold arm. by rewrite Hw.
  - intros Hnone. rewrite Hs2, Hnone. simpl. unfold arm at 1.
    by rewrite untitled_not_wellFormed.
Qed.

Lemma edit_during_load_goes_to_previous_document_witness :
  requests visiting = []
  ∧ routeDocId visiting ≠ Some "b"
  ∧ "b" ≠ ""
  ∧ let s1 := run visiting [OpenItem "b"; BodyChange "<p>late</p>"] in
    routeDocId s1 = Some "b"
    ∧ document s1 = with_body (document visiting) "<p>late</p>".
Proof.
  assert (H1 : requests visiting = []) by reflexivity.
  assert (H2 : routeDocId visiting ≠ Some "b") by (vm_compute; discriminate).
  assert (H3 : "b" ≠ "") by discriminate.
  split; [exact H1|]. split; [exact H2|]. split; [exact H3|].
  destruct (edit_during_load_goes_to_previous_document visiting "b" "<p>late</p>" H1 H2 H3)
    as (Ha & Hb & _).
  split; [exact Ha | exact Hb].
Defined.

(** ** Requests that fail *)



(** X7.  A lookup that fails leaves the previous document in the
    editor under the new route, silently: whether the open request or
    the [get] request fails, the route is the new identifier, the
    in-memory document is still the previous one, nothing is reported
    and no request is left. *)
Theorem failed_lookup_keeps_previous_document (s : State) (id : string) :
  requests s = [] →
  routeDocId s ≠ Some id →
  id ≠ "" →
  ∀ tr, tr = [OpenItem id; DbError] ∨ tr = [OpenItem id; DbSuccess; DbError] →
  let s' := run s tr in
  routeDocId s' = Some id
  ∧ document s' = document s
  ∧ notices s' = notices s
  ∧ requests s' = []
  ∧ saveDocument s' = saveDocument s.
Proof.
  intros Hr Hroute Hid tr Htr.
  assert (Htruthy : truthy id = true) by (by apply bool_decide_eq_true_2).
  assert (Hs1 : step s (OpenItem id)
                = set_isModalOpen false
                    (set_requests [ReqOpenLoad id] (set_routeDocId (Some id) s))).
  { simpl. rewrite navigate_unfold, Hr, Htruthy.
    by destruct (decide (routeDocId s = Some id)). }
  destruct Htr as [-> | ->]; cbv zeta; rewrite run_cons, Hs1; unfold run; simpl; done.
Qed.

Lemma failed_lookup_keeps_previous_document_witness :
  requests visiting = []
  ∧ routeDocId visiting ≠ Some "b"
  ∧ "b" ≠ ""
  ∧ let s' := run visiting [OpenItem "b"; DbSuccess; DbError] in
    routeDocId s' = Some "b" ∧ document s' = document visiting.
Proof.
  assert (H1 : requests visiting = []) by reflexivity.
  assert (H2 : routeDocId visiting ≠ Some "b") by (vm_compute; discriminate).
  assert (H3 : "b" ≠ "") by discriminate.
  split; [exact H1|]. split; [exact H2|]. split; [exact H3|].
  destruct (failed_lookup_keeps_previous_document visiting "b" H1 H2 H3
              [OpenItem "b"; DbSuccess; DbError] (or_intror eq_refl)) as (Ha & Hb & _).
  split; [exact Ha | exact Hb].
Defined.

(** ** Deleting a document *)

(** The requests that the [onsuccess] handler of [r] issues. *)
Definition completes (r : Request) (route : option string) : list Request :=
  match r with
  | ReqOpenLoad id => [ReqGet id]
  | ReqOpenSave doc _ => [ReqPut doc]
  | ReqOpenDelete id fresh =>
      [ReqDelete id; ReqOpenLoadAll] ++
      (if decide (route = Some fresh) then []
       else if truthy fresh then [ReqOpenLoad fresh] else [])
  | ReqOpenLoadAll => [ReqGetAll]
  | _ => []
  end.

Lemma step_requests_success (s : State) :
  requests (step s DbSuccess) =
  match requests s with
  | [] => []
  | r :: rs => rs ++ completes r (routeDocId s)
  end.
Proof.
  simpl. destruct (requests s) as [|r rs] eqn:Hr; [done|].
  destruct r; simpl; simpl_step; rewrite ?app_nil_r; try done.
  - destruct (idb_get id _); simpl_step; by rewrite ?app_nil_r.
  - by rewrite <- !app_assoc.
Qed.

Lemma delete_opened (s : State) (id fresh : string) (rest : list Request) :
  requests s = ReqOpenDelete id fresh :: rest →
  step s DbSuccess =
  notify (Success "Document deleted")
    (set_isModalOpen false
       (set_requests (rest ++ completes (ReqOpenDelete id fresh) (routeDocId s))
          (set_routeDocId (Some fresh) s))).
Proof.
  intros Hr. simpl. rewrite Hr. simpl. simpl_step. by rewrite <- !app_assoc.
Qed.

(** X8.  The handler of [deleteDocument] reports "Document deleted",
    closes the modal and moves the route to the fresh identifier as
    soon as the [delete] request has been issued, before the store has
    changed.  If that request then fails, the record is still in the
    store and the report stays. *)
Theorem delete_reported_before_it_happens (s : State) (id fresh : string) :
  requests s = [ReqOpenDelete id fresh] →
  let s1 := step s DbSuccess in
  let s2 := step s1 DbError in
  notices s1 = notices s ++ [Success "Document deleted"]
  ∧ store s1 = store s
  ∧ isModalOpen s1 = false
  ∧ routeDocId s1 = Some fresh
  ∧ (∃ more, requests s1 = ReqDelete id :: more)
  ∧ store s2 = store s
  ∧ notices s2 = notices s1.
Proof.
  intros Hr s1 s2.
  assert (Hs1 : s1 = notify (Success "Document deleted")
                       (set_isModalOpen false
                          (set_requests ([] ++ completes (ReqOpenDelete id fresh) (routeDocId s))
                             (set_routeDocId (Some fresh) s))))
    by (by apply delete_opened).
  clearbody s1. subst s1. subst s2. simpl.
  repeat split; try done. by eexists.
Qed.

(** The report is open in the editor and the user confirms its
    deletion; the open request of [deleteDocument] waits. *)
Definition deleting_report : State :=
  run (mount (Some "b") "u" {[ "a" := report ]})
      [DbSuccess; DbSuccess; DbSuccess; ConfirmDelete "a" "n"].

Lemma delete_reported_before_it_happens_witness :
  requests deleting_report = [ReqOpenDelete "a" "n"]
  ∧ let s1 := step deleting_report DbSuccess in
    let s2 := step s1 DbError in
    notices s1 = notices deleting_report ++ [Success "Document deleted"]
    ∧ store s2 = store deleting_report.
Proof.
  assert (H : requests deleting_report = [ReqOpenDelete "a" "n"]) by reflexivity.
  split; [exact H|].
  destruct (delete_reported_before_it_happens deleting_report "a" "n" H)
    as (Ha & _ & _ & _ & _ & Hb & _).
  split; [exact Ha | exact Hb].
Defined.



Lemma success_view (s : State) (r : Request) (rs : list Request) :
  requests s = r :: rs →
  requests (step s DbSuccess) = rs ++ completes r (routeDocId s)
  ∧ store (step s DbSuccess)
    = match r with
      | ReqPut doc => idb_put doc (store s)
      | ReqDelete id => idb_delete id (store s)
      | _ => store s
      end.
Proof.
  intros Hr. rewrite step_requests_success, step_store, Hr. by destruct r.
Qed.

Lemma delete_completed (s : State) (id fresh : string) :
  requests s = [] →
  routeDocId s ≠ Some fresh →
  fresh ≠ "" →
  run s [ConfirmDelete id fresh; DbSuccess; DbSuccess]
  = set_store (idb_delete id (store s))
      (notify (Success "Document deleted")
         (set_isModalOpen false
            (set_requests [ReqOpenLoadAll; ReqOpenLoad fresh]
               (set_routeDocId (Some fresh) s)))).
Proof.
  intros Hr Hroute Hfresh.
  assert (Htruthy : truthy fresh = true) by (by apply bool_decide_eq_true_2).
  rewrite run_cons.
  assert (H0 : step s (ConfirmDelete id fresh) = set_requests [ReqOpenDelete id fresh] s).
  { simpl. unfold deleteDocument, issue. by rewrite Hr. }
  rewrite H0, run_cons.
  rewrite (delete_opened _ id fresh []) by done.
  simpl completes. simpl routeDocId.
  destruct (decide (routeDocId s = Some fresh)); [done|]. rewrite Htruthy.
  reflexivity.
Qed.

(** X10.  Deleting a document does not cancel a save of it that is
    waiting in the debounced function.  After the delete has completed
    the record is gone and "Document deleted" has been reported; when
    the quiet period of the waiting save is over and the requests
    complete, the record is in the store again. *)
Theorem pending_save_survives_delete (s : State) (d : Document) (t dt : nat)
    (fresh : string) :
  pending (saveDocument s) = Some (d, t) →
  t ≤ now s + dt →
  requests s = [] →
  detached s = [] →
  routeDocId s ≠ Some fresh →
  fresh ≠ "" →
  let deleted := run s [ConfirmDelete (docId d) fresh; DbSuccess; DbSuccess] in
  let s' := run deleted [Tick dt; DbSuccess; DbSuccess; DbSuccess; DbSuccess;
                         DbSuccess; DbSuccess] in
  store deleted !! docId d = None
  ∧ notices deleted = notices s ++ [Success "Document deleted"]
  ∧ store s' !! docId d = Some d
  ∧ requests s' = [].
Proof.
  intros Hp Ht Hr Hd Hroute Hfresh deleted s'.
  pose proof (delete_completed s (docId d) fresh Hr Hroute Hfresh) as Hdel.
  fold deleted in Hdel.
  assert (Hq : requests deleted = [ReqOpenLoadAll; ReqOpenLoad fresh]) by (by rewrite Hdel).
  assert (Hc : saveDocument deleted = saveDocument s) by (by rewrite Hdel).
  assert (Hdet : detached deleted = []) by (by rewrite Hdel).
  assert (Hnow : now deleted = now s) by (by rewrite Hdel).
  assert (Hst : store deleted !! docId d = None).
  { rewrite Hdel. simpl. unfold idb_delete. apply lookup_delete_eq. }
  assert (Hn : notices deleted = notices s ++ [Success "Document deleted"])
    by (by rewrite Hdel).
  split; [exact Hst|]. split; [exact Hn|].
  clearbody deleted. clear Hdel Hst Hn.
  assert (Hq3 : requests (step deleted (Tick dt))
                = [ReqOpenLoadAll; ReqOpenLoad fresh;
                   ReqOpenSave d (closure_saveTimeout (saveDocument s))]).
  { simpl. rewrite tick_unfold. simpl.
    assert (Hfired : fired (now deleted + dt) deleted = [saveDocument deleted]).
    { unfold fired. rewrite Hdet. simpl. unfold due. rewrite Hc, Hp.
      by rewrite bool_decide_eq_true_2 by lia. }
    rewrite Hfired, Hq. simpl. unfold fire. by rewrite Hc, Hp. }
  subst s'. rewrite !run_cons.
  set (s3 := step deleted (Tick dt)) in *. clearbody s3.
  destruct (success_view s3 _ _ Hq3) as [Hq4 _]. cbn [completes app] in Hq4.
  set (s4 := step s3 DbSuccess) in *. clearbody s4.
  destruct (success_view s4 _ _ Hq4) as [Hq5 _]. cbn [completes app] in Hq5.
  set (s5 := step s4 DbSuccess) in *. clearbody s5.
  destruct (success_view s5 _ _ Hq5) as [Hq6 _]. cbn [completes app] in Hq6.
  set (s6 := step s5 DbSuccess) in *. clearbody s6.
  destruct (success_view s6 _ _ Hq6) as [Hq7 _]. cbn [completes app] in Hq7.
  set (s7 := step s6 DbSuccess) in *. clearbody s7.
  destruct (success_view s7 _ _ Hq7) as [Hq8 _]. cbn [completes app] in Hq8.
  set (s8 := step s7 DbSuccess) in *. clearbody s8.
  destruct (success_view s8 _ _ Hq8) as [Hq9 Hst9]. cbn [completes app] in Hq9.
  change (run (step s8 DbSuccess) []) with (step s8 DbSuccess).
  rewrite Hst9, Hq9. split; [apply idb_put_get | done].
Qed.

(** The report is open and has just been edited; its save waits in the
    debounced function when the user deletes it. *)
Definition report_edited : State :=
  run (mount (Some "a") "u" {[ "a" := report ]})
      [DbSuccess; DbSuccess; DbSuccess; BodyChange "<p>xy</p>"; Tick 200].

Lemma pending_save_survives_delete_witness :
  let d := {| docId := "a"; title := "Report"; body := "<p>xy</p>" |} in
  pending (saveDocument report_edited) = Some (d, 1000)
  ∧ 1000 ≤ now report_edited + 800
  ∧ requests report_edited = []
  ∧ detached report_edited = []
  ∧ routeDocId report_edited ≠ Some "n"
  ∧ "n" ≠ ""
  ∧ let deleted := run report_edited [ConfirmDelete (docId d) "n"; DbSuccess; DbSuccess] in
    let s' := run deleted [Tick 800; DbSuccess; DbSuccess; DbSuccess; DbSuccess;
                           DbSuccess; DbSuccess] in
    store deleted !! docId d = None
    ∧ notices deleted = notices report_edited ++ [Success "Document deleted"]
    ∧ store s' !! docId d = Some d
    ∧ requests s' = [].
Proof.
  intros d.
  assert (H1 : pending (saveDocument report_edited) = Some (d, 1000)) by reflexivity.
  assert (H2 : 1000 ≤ now report_edited + 800) by (vm_compute; lia).
  assert (H3 : requests report_edited = []) by reflexivity.
  assert (H4 : detached report_edited = []) by reflexivity.
  assert (H5 : routeDocId report_edited ≠ Some "n") by (vm_compute; discriminate).
  assert (H6 : "n" ≠ "") by discriminate.
  repeat (split; [assumption|]).
  exact (pending_save_survives_delete report_edited d 1000 800 "n" H1 H2 H3 H4 H5 H6).
Defined.

(** ** The document list *)









(** X13.  No event other than the completion of a [put] or [delete]
    request changes the store: edits, the manual save action,
    navigation, the modal, the passing of time and failing requests
    leave it as it is. *)
Theorem store_changes_only_on_completion (s : State) (e : Event) :
  store (step s e) ≠ store s →
  e = DbSuccess
  ∧ ∃ r rest, requests s = r :: rest
      ∧ ((∃ doc, r = ReqPut doc ∧ store (step s e) = idb_put doc (store s))
         ∨ (∃ id, r = ReqDelete id ∧ store (step s e) = idb_delete id (store s))).
Proof.
  rewrite step_store. intros Hne.
  destruct e; try done.
  destruct (requests s) as [|r rest]; [done|].
  split; [done|]. exists r, rest. split; [done|].
  destruct r; try done; [left | right]; by eexists.
Qed.

Lemma store_changes_only_on_completion_witness :
  let s := run saving_a [DbSuccess] in
  store (step s DbSuccess) ≠ store s
  ∧ ∃ r rest, requests s = r :: rest
      ∧ ((∃ doc, r = ReqPut doc ∧ store (step s DbSuccess) = idb_put doc (store s))
         ∨ (∃ id, r = ReqDelete id ∧ store (step s DbSuccess) = idb_delete id (store s))).
Proof.
  intros s.
  assert (H : store (step s DbSuccess) ≠ store s).
  { intros Heq. apply (f_equal (λ m : gmap string Document, m !! "a")) in Heq.
    vm_compute in Heq. discriminate. }
  split; [exact H|].
  exact (proj2 (store_changes_only_on_completion s DbSuccess H)).
Defined.

(** ** Refining the search term *)

Lemma append_assoc (a b c : string) : (a +:+ b) +:+ c = a +:+ (b +:+ c).
Proof.
  induction a as [|x a IH]; [done|].
  change (String x ((a +:+ b) +:+ c) = String x (a +:+ (b +:+ c))).
  by rewrite IH.
Qed.

Lemma occurs_in_trans (a b c : string) : occurs_in a b → occurs_in b c → occurs_in a c.
Proof.
  intros (p1 & q1 & ->) (p2 & q2 & ->).
  exists (p2 +:+ p1), (q1 +:+ q2). by rewrite !append_assoc.
Qed.

Section Registry_narrowing.
Variable toLowerCase : string → string.

Lemma matches_narrower (t1 t2 : string) (doc : Document) :
  occurs_in (toLowerCase t1) (toLowerCase t2) →
  matches toLowerCase t2 doc = true → matches toLowerCase t1 doc = true.
Proof.
  unfold matches. rewrite !includes_spec. intros H12 H2. by eapply occurs_in_trans.
Qed.

(** X14.  Refining the search term can only narrow the list: if the
    lower-cased term [t1] occurs in the lower-cased term [t2], every
    document listed for [t2] is listed for [t1], in the same order. *)
Theorem longer_term_narrows_list (documents : list Document) (t1 t2 : string) :
  occurs_in (toLowerCase t1) (toLowerCase t2) →
  filteredDocuments toLowerCase documents t2
    `sublist_of` filteredDocuments toLowerCase documents t1.
Proof.
  intros H12. unfold filteredDocuments.
  induction documents as [|d l IH]; simpl; [constructor|].
  destruct (matches toLowerCase t2 d) eqn:H2.
  - rewrite (matches_narrower t1 t2 d H12 H2). by constructor.
  - destruct (matches toLowerCase t1 d); [by constructor | done].
Qed.
End Registry_narrowing.

Lemma longer_term_narrows_list_witness :
  occurs_in (ascii_toLowerCase "AB") (ascii_toLowerCase "xabC")
  ∧ filteredDocuments ascii_toLowerCase shelf "xabC"
      `sublist_of` filteredDocuments ascii_toLowerCase shelf "AB".
Proof.
  assert (H : occurs_in (ascii_toLowerCase "AB") (ascii_toLowerCase "xabC")).
  { exists "x", "c". reflexivity. }
  split; [exact H|].
  exact (longer_term_narrows_list ascii_toLowerCase shelf "AB" "xabC" H).
Defined.

(** ** An edit that does not pass the gate *)




(** ** The indicator and the puts *)

Lemma step_showSaveIndicator (s : State) (e : Event) :
  showSaveIndicator (step s e) = true →
  showSaveIndicator s = true ∨ put_of e s ≠ [].
Proof.
  pose proof (f_equal (λ v, v.1.1.1.1) (step_indicator_view s e)) as Hv.
  unfold indicator_view at 1 in Hv. cbn [fst] in Hv.
  intros Hind. rewrite Hv in Hind. clear Hv.
  unfold put_of. destruct e; simpl in Hind; try (by left).
  - destruct (existsb _ _); [done | by left].
  - destruct (requests s) as [|[] rs]; simpl in Hind; try (by left). by right.
Qed.

(** X16.  In every state the component reaches from its first render,
    the indicator is visible only if a put has been issued before: it
    never announces a save for which [store.put] was not called. *)
Theorem indicator_only_after_a_put (param : option string) (uuid : string)
    (st : gmap string Document) (tr : list Event) :
  showSaveIndicator (run (mount param uuid st) tr) = true →
  puts (run (mount param uuid st) tr) ≠ [].
Proof.
  assert (H0 : showSaveIndicator (mount param uuid st) = true →
               puts (mount param uuid st) ≠ []).
  { assert (Hind : showSaveIndicator (mount param uuid st) = false).
    { unfold mount, autosave_effect.
      destruct param as [i|]; [destruct (truthy i)|]; simpl;
        rewrite untitled_not_wellFormed; reflexivity. }
    rewrite Hind. discriminate. }
  revert H0. generalize (mount param uuid st) as s.
  induction tr as [|e tr IH]; intros s Hs; [done|].
  rewrite run_cons. apply IH. intros Hind. rewrite step_puts.
  apply step_showSaveIndicator in Hind as [Hind|Hput].
  - apply Hs in Hind. by destruct (puts s).
  - destruct (puts s), (put_of e s); done.
Qed.

Lemma indicator_only_after_a_put_witness :
  showSaveIndicator (run (mount (Some "a") "u" ∅) typing) = true
  ∧ puts (run (mount (Some "a") "u" ∅) typing) ≠ [].
Proof.
  assert (H : showSaveIndicator (run (mount (Some "a") "u" ∅) typing) = true)
    by reflexivity.
  split; [exact H|].
  exact (indicator_only_after_a_put (Some "a") "u" ∅ typing H).
Defined.

Lemma burst_coalesces_witness :
  let more := [(300, "<p>ab</p>"); (999, "<p>abc</p>")] in
  let final := with_body (document visiting) "<p>abc</p>" in
  detached visiting = []
  ∧ requests visiting = []
  ∧ docId (document visiting) ≠ ""
  ∧ title (document visiting) ≠ ""
  ∧ "<p>a</p>" ≠ ""
  ∧ Forall (λ gv, gv.1 < quietPeriod ∧ gv.2 ≠ "") more
  ∧ let s1 := run visiting (burst "<p>a</p>" more) in
    puts s1 = puts visiting
    ∧ requests s1 = []
    ∧ document s1 = final
    ∧ let s2 := run s1 [Tick quietPeriod; DbSuccess] in
      puts s2 = puts visiting ++ [final] ∧ requests s2 = [ReqPut final].
Proof.
  intros more final.
  assert (H1 : detached visiting = []) by reflexivity.
  assert (H2 : requests visiting = []) by reflexivity.
  assert (H3 : docId (document visiting) ≠ "") by (vm_compute; discriminate).
  assert (H4 : title (document visiting) ≠ "") by (vm_compute; discriminate).
  assert (H5 : "<p>a</p>" ≠ "") by discriminate.
  assert (H6 : Forall (λ gv, gv.1 < quietPeriod ∧ gv.2 ≠ "") more).
  { repeat constructor; simpl; (unfold quietPeriod; lia) || discriminate. }
  repeat (split; [assumption|]).
  exact (burst_coalesces visiting "<p>a</p>" more H1 H2 H3 H4 H5 H6).
Defined.

(** ** Download *)

(** [downloadMarkdown]: the name given to the download and the content
    of the blob.  The function reads the in-memory document only. *)
Definition downloadMarkdown (s : State) : string * string :=
  ((if truthy (title (document s)) then title (document s) else "Untitled") +:+ ".md",
   body (document s)).

(** X18.  The download exports what the editor shows, saved or not:
    right after a body edit the exported content is the new body while
    the store is unchanged.  The file name is the title followed by
    ".md"; with an empty title it is "Untitled.md", so the part before
    the extension is never empty. *)
Theorem download_exports_editor_content (s : State) (v : string) :
  let s' := step s (BodyChange v) in
  (downloadMarkdown s').2 = v
  ∧ store s' = store s
  ∧ (title (document s) ≠ "" → (downloadMarkdown s').1 = title (document s) +:+ ".md")
  ∧ (title (document s) = "" → (downloadMarkdown s').1 = "Untitled.md")
  ∧ ∃ stem, stem ≠ "" ∧ (downloadMarkdown s').1 = stem +:+ ".md".
Proof.
  intros s'.
  assert (Hdoc : document s' = with_body (document s) v).
  { subst s'. by rewrite step_document. }
  assert (Hst : store s' = store s) by (subst s'; by rewrite step_store).
  clearbody s'. unfold downloadMarkdown. rewrite Hdoc. simpl.
  split; [done|]. split; [done|].
  unfold truthy. destruct (decide (title (document s) = "")) as [Ht|Ht].
  - rewrite bool_decide_eq_false_2 by (by intros ?).
    split; [done|]. split; [done|]. by exists "Untitled".
  - rewrite bool_decide_eq_true_2 by done.
    split; [done|]. split; [done|]. by exists (title (document s)).
Qed.
